(** * g2t: genomic positions to transcript positions

    A shallow embedding of [src/main/g2t.py] and the properties of its
    row mapper, parallel dispatcher, transform gateway and result joiner.

    Python values, dictionaries and exceptions are modelled explicitly;
    the annotation store, the completion order of the worker pool and the
    external [gppy] process are the environment of the program and are
    passed as arguments. *)

From stdpp Require Import gmap strings list fin_maps.

Local Open Scope Z_scope.

(** ** Python values and exceptions *)

(** The exceptions the program can meet.  All of them are subclasses of
    Python's [Exception], which is what [except Exception] catches. *)
Inductive exn : Type :=
| KeyError (key : string)
| ValueError
| IndexError
| EmptyDataError
| FileNotFoundError
| OtherError (name : string).

Inductive result (A : Type) : Type :=
| Ok (a : A)
| Raise (e : exn).
Arguments Ok {A} a.
Arguments Raise {A} e.

#[global] Instance result_ret : MRet result := λ A a, Ok a.
#[global] Instance result_bind : MBind result := λ A B f m,
  match m with
  | Ok a => f a
  | Raise e => Raise e
  end.

(** A cell of the input frame as a worker sees it in [row_dict]: a
    number with an integer value, a string, or the NaN that pandas stores
    for a missing cell. *)
Inductive pyval : Type :=
| PyInt (z : Z)
| PyStr (s : string)
| PyNaN.

#[global] Instance exn_eq_dec : EqDecision exn.
Proof. solve_decision. Defined.
#[global] Instance pyval_eq_dec : EqDecision pyval.
Proof. solve_decision. Defined.

(** ** The annotation store *)

(** A feature of the store: [exon.strand] and [exon.attributes], a
    dictionary from attribute names to lists of values. *)
Record Feature : Type := mkFeature {
  strand : string;
  attributes : gmap string (list string)
}.

(** What [db.region(...)] hands back when the call itself returns: an
    iterable.  Iterating it yields [yielded] and then either stops or
    raises [raised]. *)
Record exon_iter : Type := mkIter {
  yielded : list Feature;
  raised : option exn
}.

(** [db.region(region=(chrom, start, end), featuretype='exon')]: the call
    raises, or returns an iterable of exon features. *)
Definition FeatureDB : Type := pyval → Z → Z → result exon_iter.

(** ** Records *)

(** The dictionary appended to [results] in [process_row].  Its
    [transcript_id] is the Python value the attribute lookup gave: a
    string, or [None]. *)
Record MappedRecord : Type := mkMapped {
  transcript_id : option string;
  genomic_position : Z;
  label : pyval
}.

#[global] Instance MappedRecord_eq_dec : EqDecision MappedRecord.
Proof. solve_decision. Defined.

Section G2T.

(** Python's [int(s)] on a string: [None] stands for [ValueError]. *)
Variable int_of_str : string → option Z.

(** [int(v)] *)
Definition py_int (v : pyval) : result Z :=
  match v with
  | PyInt z => Ok z
  | PyStr s => match int_of_str s with
               | Some z => Ok z
               | None => Raise ValueError
               end
  | PyNaN => Raise ValueError
  end.

(** [d[k]] *)
Definition getitem (d : gmap string pyval) (k : string) : result pyval :=
  match d !! k with
  | Some v => Ok v
  | None => Raise (KeyError k)
  end.

(** [s != v] for a string [s] and an arbitrary value [v]: values of
    another type are never equal to a string. *)
Definition str_ne (s : string) (v : pyval) : bool :=
  match v with
  | PyStr s' => negb (String.eqb s s')
  | _ => true
  end.

(** [exon.attributes.get('transcript_id', [None])[0]] *)
Definition get_transcript_id (exon : Feature) : result (option string) :=
  match attributes exon !! "transcript_id"%string with
  | None => Ok None
  | Some [] => Raise IndexError
  | Some (t :: _) => Ok (Some t)
  end.

(** Truthiness of [transcript_id]: [None] and the empty string are false. *)
Definition truthy (t : option string) : bool :=
  match t with
  | None => false
  | Some s => negb (String.eqb s "")
  end.

(** The body of [for exon in exons], as a function of the accumulator
    [results]. *)
Definition exon_body (strand_ label_ : pyval) (pos : Z)
    (results : list MappedRecord) (exon : Feature) : result (list MappedRecord) :=
  if str_ne (strand exon) strand_ then Ok results
  else
    t ← get_transcript_id exon;
    if truthy t then Ok (results ++ [mkMapped t pos label_])
    else Ok results.

(** [for exon in exons: ...] over the features the iterable yields. *)
Fixpoint exon_loop (strand_ label_ : pyval) (pos : Z)
    (results : list MappedRecord) (exons : list Feature) : result (list MappedRecord) :=
  match exons with
  | [] => Ok results
  | exon :: rest =>
      results' ← exon_body strand_ label_ pos results exon;
      exon_loop strand_ label_ pos results' rest
  end.

(** The whole loop and [return results]: when the iterable raises after
    its last feature, the exception leaves [process_row]. *)
Definition iterate (strand_ label_ : pyval) (pos : Z) (it : exon_iter)
    : result (list MappedRecord) :=
  results ← exon_loop strand_ label_ pos [] (yielded it);
  match raised it with
  | None => Ok results
  | Some e => Raise e
  end.

(** [process_row(row_dict)], with the worker's global [db] explicit. *)
Definition process_row (db : FeatureDB) (row_dict : gmap string pyval)
    : result (list MappedRecord) :=
  chrom ← getitem row_dict "chrom";
  posv ← getitem row_dict "pos";
  pos ← py_int posv;
  strand_ ← getitem row_dict "strand";
  label_ ← getitem row_dict "label";
  match db chrom pos pos with
  | Raise _ => Ok []
  | Ok exons => iterate strand_ label_ pos exons
  end.

(** ** The parallel dispatcher *)

(** The futures in the order [as_completed] yields them: [order] lists
    the indices of the submitted tasks by completion time. *)
Definition as_completed {A} (futures : list A) (order : list nat) : list A :=
  omap (λ i, futures !! i) order.

(** [for future in as_completed(futures)]: [future.result()] returns the
    task's value or raises the exception the task raised. *)
Fixpoint collect (records : list MappedRecord)
    (completed : list (result (list MappedRecord))) : result (list MappedRecord) :=
  match completed with
  | [] => Ok records
  | future :: rest =>
      result_ ← future;
      collect (match result_ with
               | [] => records
               | _ :: _ => records ++ result_
               end) rest
  end.

(** Lines 53 to 70: one task per row of [input_df], collected in
    completion order.  The number of workers only influences that order. *)
Definition dispatch (db : FeatureDB) (input_df : list (gmap string pyval))
    (order : list nat) : result (list MappedRecord) :=
  let futures := process_row db <$> input_df in
  collect [] (as_completed futures order).

(** ** Frames and files *)

(** A row of [g2t_df], the parsed output of the transform tool. *)
Record TransformedRecord : Type := mkTransformed {
  g2t_transcript_id : string;
  g2t_genomic_position : Z;
  transcript_position : Z;
  feature : string
}.

(** A row of [final_df]; [final_label] is [None] where pandas fills NaN. *)
Record FinalRecord : Type := mkFinal {
  final_transcript_id : string;
  final_genomic_position : Z;
  final_transcript_position : Z;
  final_feature : string;
  final_label : option pyval
}.

(** What the tool wrote to its standard output, as pandas sees it: a
    table of four-column rows with string transcript identifiers and
    integer positions, or content from which no such table is obtained
    because [pd.read_csv], the assignment of the four column names or the
    comparison of the key column types in [pd.merge] raises. *)
Inductive tool_stdout : Type :=
| Malformed (e : exn)
| Table (rows : list TransformedRecord).

(** [subprocess.run] returns a [CompletedProcess] once the child has
    exited. *)
Record CompletedProcess : Type := mkCompleted {
  returncode : Z;
  stdout : tool_stdout
}.

(** Paths are lists of components; [os.path.join(a, "x")] is [a ++ ["x"]]. *)
Abbreviation path := (list string).

Inductive file : Type :=
| Directory
| Database (gtf_file : path)
| InputTsv (header : option (list string)) (lines : list (option string * Z))
| OutputTsv (out : tool_stdout)
| MergedTsv (header : option (list string)) (rows : list FinalRecord).

(** The part of the world the program changes: the file system and the
    [gppy] processes it has started, with their [-g] and [-i] arguments. *)
Record state : Type := mkState {
  files : gmap (list string) file;
  gppy_runs : list (path * path)
}.

(** The part of the world the program only consults. *)
Record world : Type := mkWorld {
  (** the store every worker opens in [init_db] *)
  store : FeatureDB;
  (** the completion order of the tasks submitted for a frame *)
  completion : list (gmap string pyval) → list nat;
  (** the [gppy g2t] executable: from the annotation path and the content
      of its input file to its exit, or the exception [subprocess.run]
      raises when the process cannot be started *)
  gppy : path → option file → result CompletedProcess
}.

(** Computations that read and change [state] and may raise; the state
    reached at the moment of the exception is kept. *)
Definition run (A : Type) : Type := state → result A * state.

#[global] Instance run_ret : MRet run := λ A a st, (Ok a, st).
#[global] Instance run_bind : MBind run := λ A B f m st,
  match m st with
  | (Ok a, st') => f a st'
  | (Raise e, st') => (Raise e, st')
  end.

Definition lift {A} (r : result A) : run A := λ st, (r, st).

Definition path_exists (p : path) : run bool :=
  λ st, (Ok (bool_decide (is_Some (files st !! p))), st).

Definition write_file (p : path) (f : file) : run unit :=
  λ st, (Ok (), mkState (<[p := f]> (files st)) (gppy_runs st)).

(** [subprocess.run(["gppy", "g2t", "-g", gtf_file, "-i", input],
    stdout=fout)]: the call returns when the child has exited, whatever
    its exit code, and raises when the child cannot be started. *)
Definition subprocess_run (w : world) (gtf_file input output : path)
    : run CompletedProcess :=
  λ st,
    let st' := mkState (files st) (gppy_runs st ++ [(gtf_file, input)]) in
    match gppy w gtf_file (files st !! input) with
    | Raise e => (Raise e, st')
    | Ok proc => (Ok proc, mkState (<[output := OutputTsv (stdout proc)]> (files st'))
                                  (gppy_runs st'))
    end.

(** Lines 80 to 85: the output file is opened for writing, the tool is
    run with its standard output sent there, and the [CompletedProcess]
    that [subprocess.run] returns is dropped. *)
Definition run_gppy (w : world) (gtf_file input output : path) : run unit :=
  write_file output (OutputTsv (Table []));;
  _ ← subprocess_run w gtf_file input output;
  mret ().

(** [pd.DataFrame(records)[["transcript_id", "genomic_position"]]]: a
    frame built from an empty list has no columns at all. *)
Definition key_columns (records : list MappedRecord)
    : result (list (option string * Z)) :=
  match records with
  | [] => Raise (KeyError "['transcript_id', 'genomic_position']")
  | _ :: _ => Ok ((λ r, (transcript_id r, genomic_position r)) <$> records)
  end.

(** [pd.read_csv(gppy_output_file, sep='\t', header=None)] followed by
    the assignment of the four column names. *)
Definition read_csv (f : option file) : result (list TransformedRecord) :=
  match f with
  | Some (OutputTsv (Table [])) => Raise EmptyDataError
  | Some (OutputTsv (Table rows)) => Ok rows
  | Some (OutputTsv (Malformed e)) => Raise e
  | Some _ => Raise (OtherError "ParserError")
  | None => Raise FileNotFoundError
  end.

Definition read_output (p : path) : run (list TransformedRecord) :=
  λ st, (read_csv (files st !! p), st).

(** ** The result joiner *)

(** Equality of the two key columns of a left and a right row; [None]
    is equal to no string. *)
Definition key_match (t : TransformedRecord) (m : MappedRecord) : bool :=
  match transcript_id m with
  | Some tid => String.eqb (g2t_transcript_id t) tid
  | None => false
  end
  && Z.eqb (g2t_genomic_position t) (genomic_position m).

Definition joined (t : TransformedRecord) (l : option pyval) : FinalRecord :=
  mkFinal (g2t_transcript_id t) (g2t_genomic_position t)
          (transcript_position t) (feature t) l.

(** The rows of the right frame that share the key of a left row, in the
    order of the right frame. *)
Fixpoint matching (t : TransformedRecord) (right : list MappedRecord) : list FinalRecord :=
  match right with
  | [] => []
  | m :: rest =>
      if key_match t m then joined t (Some (label m)) :: matching t rest
      else matching t rest
  end.

(** [pd.merge(left, right, on=["transcript_id", "genomic_position"],
    how="left")] *)
Fixpoint merge_left (left : list TransformedRecord) (right : list MappedRecord)
    : list FinalRecord :=
  match left with
  | [] => []
  | t :: rest =>
      match matching t right with
      | [] => [joined t None]
      | found => found
      end ++ merge_left rest right
  end.

(** The MappedRecords that share the (transcript_id, genomic_position)
    key of a transformed row, as the specification of the join speaks of
    them; [merge_left] itself goes through [key_match]. *)
Definition sharing_key (t : TransformedRecord) (right : list MappedRecord)
    : list MappedRecord :=
  filter (λ m, transcript_id m = Some (g2t_transcript_id t)
               ∧ genomic_position m = g2t_genomic_position t) right.

(** ** [map_genomic_to_transcript] *)

(** The parents of a path: its proper prefixes of at least one
    component, the shortest first. *)
Definition parents (p : path) : list path :=
  (λ n, take n p) <$> seq 1 (length p - 1).

(** [mkdir] of one parent, only when nothing is there yet. *)
Definition mkdir_missing (p : path) (fs : gmap (list string) file)
    : gmap (list string) file :=
  match fs !! p with
  | Some _ => fs
  | None => <[p := Directory]> fs
  end.

(** [os.makedirs(p)] for a path that does not exist: every missing parent
    is created, then the leaf.  The call is taken to succeed. *)
Definition makedirs (p : path) : run unit :=
  λ st, (Ok (), mkState (<[p := Directory]> (foldr mkdir_missing (files st) (parents p)))
                        (gppy_runs st)).

(** Lines 40 to 45: [os.makedirs] and [gffutils.create_db], each only
    when its path does not exist yet.  Both calls are taken to succeed. *)
Definition prepare (gtf_file output_folder db_path : path) : run unit :=
  present ← path_exists output_folder;
  (if present : bool then mret () else makedirs output_folder);;
  present ← path_exists db_path;
  (if present : bool then mret () else write_file db_path (Database gtf_file)).

(** The header [to_csv] writes for [final_df]. *)
Definition final_columns : list string :=
  ["transcript_id"; "genomic_position"; "transcript_position"; "feature"; "label"]%string.

Definition map_genomic_to_transcript (w : world)
    (input_df : list (gmap string pyval)) (gtf_file output_folder db_path : path)
    : run (path * path) :=
  prepare gtf_file output_folder db_path;;
  let gppy_input_file := output_folder ++ ["gppy_input.tsv"%string] in
  let gppy_output_file := output_folder ++ ["gppy_output.tsv"%string] in
  let merged_output_file := output_folder ++ ["gppy_output_labeled.tsv"%string] in
  records ← lift (dispatch (store w) input_df (completion w input_df));
  pairs ← lift (key_columns records);
  write_file gppy_input_file (InputTsv None pairs);;
  run_gppy w gtf_file gppy_input_file gppy_output_file;;
  g2t_df ← read_output gppy_output_file;
  let final_df := merge_left g2t_df records in
  write_file merged_output_file (MergedTsv (Some final_columns) final_df);;
  mret (gppy_input_file, merged_output_file).

(** ** [main] *)

(** A row of the four-column frame [input_df] that [main] builds. *)
Record InputRow : Type := mkRow {
  row_chrom : pyval;
  row_pos : pyval;
  row_strand : pyval;
  row_label : pyval
}.

(** [row._asdict()] *)
Definition asdict (r : InputRow) : gmap string pyval :=
  {[ "chrom"%string := row_chrom r; "pos"%string := row_pos r;
     "strand"%string := row_strand r; "label"%string := row_label r ]}.

(** One element of [input_df["chrom"].isin(args.val_chroms)]; the values
    of [--val_chroms] are strings. *)
Definition isin (v : pyval) (values : list string) : bool :=
  match v with
  | PyStr s => bool_decide (s ∈ values)
  | _ => false
  end.

Definition val_df (input_df : list InputRow) (val_chroms : list string) : list InputRow :=
  filter (λ r, isin (row_chrom r) val_chroms = true) input_df.

Definition train_df (input_df : list InputRow) (val_chroms : list string) : list InputRow :=
  filter (λ r, ¬ isin (row_chrom r) val_chroms = true) input_df.

(** Lines 118 to 144 of [main], from the frame [input_df] on. *)
Definition main (w : world) (input_df : list InputRow)
    (gtf_path output_folder db_path : path) (val_chroms : list string) : run unit :=
  match val_chroms with
  | _ :: _ =>
      map_genomic_to_transcript w (asdict <$> train_df input_df val_chroms)
        gtf_path (output_folder ++ ["train"%string]) db_path;;
      map_genomic_to_transcript w (asdict <$> val_df input_df val_chroms)
        gtf_path (output_folder ++ ["val"%string]) db_path;;
      mret ()
  | [] =>
      map_genomic_to_transcript w (asdict <$> input_df)
        gtf_path output_folder db_path;;
      mret ()
  end.

(** ** Sample data *)

(** The exon of transcript T1 on the given strand. *)
Definition exon_T1 (s : string) : Feature :=
  mkFeature s {[ "transcript_id"%string := ["T1"%string] ]}.

(** An exon whose attributes have no [transcript_id]. *)
Definition exon_anonymous : Feature :=
  mkFeature "+" {[ "gene_id"%string := ["G1"%string] ]}.

(** An exon whose [transcript_id] is the empty string. *)
Definition exon_blank : Feature :=
  mkFeature "+" {[ "transcript_id"%string := [""%string] ]}.

(** A store that answers every query with the given features. *)
Definition store_of (exons : list Feature) : FeatureDB :=
  λ _ _ _, Ok (mkIter exons None).

(** A store whose every query raises. *)
Definition store_broken : FeatureDB :=
  λ _ _ _, Raise (OtherError "sqlite3.OperationalError").

Definition row_X : InputRow := mkRow (PyStr "1") (PyInt 1000) (PyStr "+") (PyStr "X").
Definition row_Y : InputRow := mkRow (PyStr "1") (PyInt 1000) (PyStr "+") (PyStr "Y").
Definition row_chr2 : InputRow := mkRow (PyStr "2") (PyInt 500) (PyStr "+") (PyStr "Z").
(** A row whose position cell is missing in the CSV. *)
Definition row_nopos : InputRow := mkRow (PyStr "1") PyNaN (PyStr "+") (PyStr "W").

Definition mapped_X : MappedRecord := mkMapped (Some "T1"%string) 1000 (PyStr "X").
Definition mapped_Y : MappedRecord := mkMapped (Some "T1"%string) 1000 (PyStr "Y").
Definition transformed_T1 : TransformedRecord := mkTransformed "T1" 1000 50 "exon".

(** A world whose tool prints [transformed_T1] and exits with [code];
    tasks complete in submission order. *)
Definition world_exit (code : Z) : world :=
  mkWorld (store_of [exon_T1 "+"])
          (λ df, seq 0 (length df))
          (λ _ _, Ok (mkCompleted code (Table [transformed_T1]))).

(** A world whose store has no exon anywhere. *)
Definition world_bare : world :=
  mkWorld (store_of [])
          (λ df, seq 0 (length df))
          (λ _ _, Ok (mkCompleted 0 (Table []))).

Definition empty_state : state := mkState ∅ [].

(** A conversion of strings that accepts nothing.  The sample rows hold
    integer positions, so the conversion of strings is never consulted
    on them. *)
Definition int_of_no_str : string → option Z := λ _, None.

(** ** Descriptions used in the statements *)

(** The record one feature of the store's answer stands for: a feature
    on the strand [s] whose first transcript_id value is a non-empty
    string gives a record, any other feature gives none. *)
Definition record_of (s l : pyval) (pos : Z) (exon : Feature) : option MappedRecord :=
  match attributes exon !! "transcript_id"%string with
  | Some (tid :: _) =>
      if decide (PyStr (strand exon) = s ∧ tid ≠ ""%string)
      then Some (mkMapped (Some tid) pos l)
      else None
  | _ => None
  end.

(** The three files one call of [map_genomic_to_transcript] writes in
    its output folder. *)
Definition output_files (output_folder : path) : list path :=
  [output_folder ++ ["gppy_input.tsv"%string];
   output_folder ++ ["gppy_output.tsv"%string];
   output_folder ++ ["gppy_output_labeled.tsv"%string]].

(** An exon on the plus strand whose [transcript_id] attribute has no
    value at all. *)
Definition exon_unvalued : Feature :=
  mkFeature "+" {[ "transcript_id"%string := [] ]}.

(** A store whose query returns an iterable that yields the exon of T1
    and then raises. *)
Definition store_failing_late : FeatureDB :=
  λ _ _ _, Ok (mkIter [exon_T1 "+"] (Some (OtherError "sqlite3.OperationalError"))).


(** A world in which the [gppy] executable is not installed. *)
Definition world_no_tool : world :=
  mkWorld (store_of [exon_T1 "+"])
          (λ df, seq 0 (length df))
          (λ _ _, Raise FileNotFoundError).

(** A world whose tool prints nothing and exits with [code]. *)
Definition world_silent (code : Z) : world :=
  mkWorld (store_of [exon_T1 "+"])
          (λ df, seq 0 (length df))
          (λ _ _, Ok (mkCompleted code (Table []))).

(** A row whose chromosome cell was read as a number. *)
Definition row_numeric : InputRow := mkRow (PyInt 1) (PyInt 1000) (PyStr "+") (PyStr "N").

(** Case analysis on the outcome of the tool, then of the parse. *)
Ltac tool_cases proc e :=
  match goal with
  | |- context [gppy ?w ?g ?f] => destruct (gppy w g f) as [proc|e]
  end.
Ltac parse_cases df e :=
  match goal with
  | |- context [read_csv ?f] => destruct (read_csv f) as [df|e]
  end.

(** ** Properties of the row mapper *)

Lemma str_ne_true (f : string) (v : pyval) : PyStr f ≠ v → str_ne f v = true.
Proof.
  destruct v as [z|s'|]; simpl; try done.
  intros Hne. destruct (String.eqb_spec f s') as [->|]; [by destruct Hne | done].
Qed.

Lemma str_ne_false (f : string) (v : pyval) : str_ne f v = false → PyStr f = v.
Proof.
  destruct v as [z|s'|]; simpl; try done.
  destruct (String.eqb_spec f s') as [->|]; [done | discriminate].
Qed.

Lemma exon_body_off_strand s l pos acc (exon : Feature) :
  PyStr (strand exon) ≠ s → exon_body s l pos acc exon = Ok acc.
Proof. intros Hne. unfold exon_body. by rewrite str_ne_true. Qed.

Lemma exon_body_no_attribute s l pos acc (exon : Feature) :
  attributes exon !! "transcript_id"%string = None →
  exon_body s l pos acc exon = Ok acc.
Proof.
  intros Hnone. unfold exon_body, get_transcript_id. rewrite Hnone.
  by destruct (str_ne _ _).
Qed.

Lemma exon_body_blank s l pos acc (exon : Feature) rest :
  attributes exon !! "transcript_id"%string = Some (""%string :: rest) →
  exon_body s l pos acc exon = Ok acc.
Proof.
  intros Hblank. unfold exon_body, get_transcript_id. rewrite Hblank.
  by destruct (str_ne _ _).
Qed.

(** What one turn of the loop can do to [results]. *)
Lemma exon_body_inv s l pos acc (exon : Feature) recs :
  exon_body s l pos acc exon = Ok recs →
  recs = acc ∨
  ∃ tid rest, PyStr (strand exon) = s
    ∧ attributes exon !! "transcript_id"%string = Some (tid :: rest)
    ∧ tid ≠ ""%string
    ∧ recs = acc ++ [mkMapped (Some tid) pos l].
Proof.
  unfold exon_body, get_transcript_id.
  destruct (str_ne (strand exon) s) eqn:Hs; [intros [= <-]; by left |].
  apply str_ne_false in Hs.
  destruct (attributes exon !! "transcript_id"%string) as [[|tid rest]|] eqn:Hattr;
    simpl; try discriminate; [| intros [= <-]; by left].
  destruct (String.eqb_spec tid "") as [->|Hne]; simpl; intros [= <-]; [by left |].
  right. by exists tid, rest.
Qed.

Lemma exon_loop_app s l pos (xs ys : list Feature) : ∀ acc,
  exon_loop s l pos acc (xs ++ ys)
  = exon_loop s l pos acc xs ≫= λ acc', exon_loop s l pos acc' ys.
Proof.
  induction xs as [|x xs IH]; intros acc; simpl; [done |].
  destruct (exon_body s l pos acc x) as [acc'|e]; simpl; [apply IH | done].
Qed.

(** A feature on which the body leaves [results] alone can be removed
    from the answer of the store. *)
Lemma exon_loop_delete s l pos (xs ys : list Feature) (exon : Feature) :
  (∀ acc, exon_body s l pos acc exon = Ok acc) →
  ∀ acc, exon_loop s l pos acc (xs ++ exon :: ys) = exon_loop s l pos acc (xs ++ ys).
Proof.
  intros Hskip acc. rewrite !exon_loop_app.
  destruct (exon_loop s l pos acc xs) as [acc'|e]; simpl; [| done].
  by rewrite Hskip.
Qed.

Lemma exon_loop_elem s l pos (exons : list Feature) : ∀ acc recs r,
  exon_loop s l pos acc exons = Ok recs → r ∈ recs →
  r ∈ acc ∨
  ∃ exon tid rest, exon ∈ exons
    ∧ PyStr (strand exon) = s
    ∧ attributes exon !! "transcript_id"%string = Some (tid :: rest)
    ∧ transcript_id r = Some tid
    ∧ tid ≠ ""%string
    ∧ genomic_position r = pos
    ∧ label r = l.
Proof.
  induction exons as [|x xs IH]; intros acc recs r; simpl.
  - intros [= <-]; by left.
  - destruct (exon_body s l pos acc x) as [acc'|e] eqn:Hbody; simpl; [| done].
    intros Hloop Hr.
    destruct (IH _ _ _ Hloop Hr) as [Hacc'|(exon & tid & rest & Hin & ?)].
    + apply exon_body_inv in Hbody as [->|(tid & rest & Hs & Hattr & Hne & ->)];
        [by left |].
      apply elem_of_app in Hacc' as [?|Hlast]; [by left |].
      apply list_elem_of_singleton in Hlast as ->. right.
      exists x, tid, rest. simpl. split_and!; try done. by left.
    + right. exists exon, tid, rest. split; [by right | done].
Qed.

Lemma iterate_elem s l pos (it : exon_iter) recs r :
  iterate s l pos it = Ok recs → r ∈ recs →
  ∃ exon tid rest, exon ∈ yielded it
    ∧ PyStr (strand exon) = s
    ∧ attributes exon !! "transcript_id"%string = Some (tid :: rest)
    ∧ transcript_id r = Some tid
    ∧ tid ≠ ""%string
    ∧ genomic_position r = pos
    ∧ label r = l.
Proof.
  unfold iterate.
  destruct (exon_loop s l pos [] (yielded it)) as [recs'|e] eqn:Hloop; simpl; [| done].
  destruct (raised it); [done |]. intros [= <-] Hr.
  destruct (exon_loop_elem _ _ _ _ _ _ _ Hloop Hr) as [Hnil|?]; [| done].
  by apply elem_of_nil in Hnil.
Qed.

Lemma iterate_delete s l pos (xs ys : list Feature) (exon : Feature) tail :
  (∀ acc, exon_body s l pos acc exon = Ok acc) →
  iterate s l pos (mkIter (xs ++ exon :: ys) tail)
  = iterate s l pos (mkIter (xs ++ ys) tail).
Proof. intros Hskip. unfold iterate. simpl. by rewrite exon_loop_delete. Qed.

(** [process_row] on a row that has its four cells and a position that
    converts to an integer. *)
Lemma process_row_query db (row : gmap string pyval) chrom posv pos s l :
  row !! "chrom"%string = Some chrom →
  row !! "pos"%string = Some posv →
  py_int posv = Ok pos →
  row !! "strand"%string = Some s →
  row !! "label"%string = Some l →
  process_row db row = match db chrom pos pos with
                       | Raise _ => Ok []
                       | Ok exons => iterate s l pos exons
                       end.
Proof.
  intros Hc Hp Hi Hs Hl. unfold process_row, getitem.
  rewrite Hc, Hp. simpl. rewrite Hi. simpl. by rewrite Hs, Hl.
Qed.

(** Every successful [process_row] has read its cells and asked the store. *)
Lemma process_row_inv db (row : gmap string pyval) recs :
  process_row db row = Ok recs →
  ∃ chrom posv pos s l,
    row !! "chrom"%string = Some chrom
    ∧ row !! "pos"%string = Some posv
    ∧ py_int posv = Ok pos
    ∧ row !! "strand"%string = Some s
    ∧ row !! "label"%string = Some l.
Proof.
  unfold process_row, getitem.
  destruct (row !! "chrom"%string) as [chrom|]; simpl; [| done].
  destruct (row !! "pos"%string) as [posv|]; simpl; [| done].
  destruct (py_int posv) as [pos|] eqn:Hi; simpl; [| done].
  destruct (row !! "strand"%string) as [s|]; simpl; [| done].
  destruct (row !! "label"%string) as [l|]; simpl; [| done].
  intros _. by exists chrom, posv, pos, s, l.
Qed.

(** C2: an exon feature returned for the row's (chromosome, position)
    whose strand is not equal to the row's strand contributes no
    MappedRecord: the row mapper returns what it returns on the answer
    without that feature, and every record it emits comes from a feature
    whose strand is exactly the row's strand. *)
Theorem strand_filter_exact db (row : gmap string pyval) chrom posv pos s l
    (before after : list Feature) (exon : Feature) tail :
  row !! "chrom"%string = Some chrom →
  row !! "pos"%string = Some posv →
  py_int posv = Ok pos →
  row !! "strand"%string = Some s →
  row !! "label"%string = Some l →
  db chrom pos pos = Ok (mkIter (before ++ exon :: after) tail) →
  PyStr (strand exon) ≠ s →
  process_row db row = iterate s l pos (mkIter (before ++ after) tail)
  ∧ ∀ recs r, process_row db row = Ok recs → r ∈ recs →
      ∃ e tid rest, e ∈ before ++ after
        ∧ PyStr (strand e) = s
        ∧ attributes e !! "transcript_id"%string = Some (tid :: rest)
        ∧ transcript_id r = Some tid.
Proof.
  intros Hc Hp Hi Hs Hl Hdb Hne.
  assert (process_row db row = iterate s l pos (mkIter (before ++ after) tail)) as Heq.
  { rewrite (process_row_query _ _ _ _ _ _ _ Hc Hp Hi Hs Hl), Hdb.
    apply iterate_delete. intros acc. by apply exon_body_off_strand. }
  split; [done |]. intros recs r Hrun Hr. rewrite Heq in Hrun.
  destruct (iterate_elem _ _ _ _ _ _ Hrun Hr)
    as (e & tid & rest & Hin & Hstrand & Hattr & Htid & _).
  by exists e, tid, rest.
Qed.


(** C6: the transcript_id of every MappedRecord the row mapper returns
    is not [None]: it is a string, not empty, the first value of the
    transcript_id attribute of a feature the store returned for the row,
    and the record's genomic_position is the row's position; a feature
    without a transcript_id attribute contributes no MappedRecord. *)
Theorem mapped_transcript_id_present db (row : gmap string pyval) :
  (∀ recs r, process_row db row = Ok recs → r ∈ recs →
     ∃ chrom posv pos it exon tid rest,
       row !! "chrom"%string = Some chrom
       ∧ row !! "pos"%string = Some posv
       ∧ py_int posv = Ok pos
       ∧ db chrom pos pos = Ok it
       ∧ exon ∈ yielded it
       ∧ attributes exon !! "transcript_id"%string = Some (tid :: rest)
       ∧ transcript_id r = Some tid
       ∧ tid ≠ ""%string
       ∧ genomic_position r = pos)
  ∧ (∀ chrom posv pos s l before exon after tail,
       row !! "chrom"%string = Some chrom →
       row !! "pos"%string = Some posv →
       py_int posv = Ok pos →
       row !! "strand"%string = Some s →
       row !! "label"%string = Some l →
       db chrom pos pos = Ok (mkIter (before ++ exon :: after) tail) →
       attributes exon !! "transcript_id"%string = None →
       process_row db row = iterate s l pos (mkIter (before ++ after) tail)).
Proof.
  split.
  - intros recs r Hrun Hr.
    destruct (process_row_inv _ _ _ Hrun) as (chrom & posv & pos & s & l & Hc & Hp & Hi & Hs & Hl).
    rewrite (process_row_query _ _ _ _ _ _ _ Hc Hp Hi Hs Hl) in Hrun.
    destruct (db chrom pos pos) as [it|e] eqn:Hdb.
    + destruct (iterate_elem _ _ _ _ _ _ Hrun Hr)
        as (exon & tid & rest & Hin & _ & Hattr & Htid & Hne & Hpos & _).
      by exists chrom, posv, pos, it, exon, tid, rest.
    + injection Hrun as <-. by apply elem_of_nil in Hr.
  - intros chrom posv pos s l before exon after tail Hc Hp Hi Hs Hl Hdb Hnone.
    rewrite (process_row_query _ _ _ _ _ _ _ Hc Hp Hi Hs Hl), Hdb.
    apply iterate_delete. intros acc. by apply exon_body_no_attribute.
Qed.

(** C10: a feature whose transcript_id attribute is the empty string
    contributes no MappedRecord, exactly like a feature without the
    attribute: the row mapper returns what it returns on the answer
    without that feature, and no record it emits has [None] or the
    empty string as transcript_id. *)
Theorem blank_transcript_id_dropped db (row : gmap string pyval) chrom posv pos s l
    (before after : list Feature) (exon : Feature) others tail :
  row !! "chrom"%string = Some chrom →
  row !! "pos"%string = Some posv →
  py_int posv = Ok pos →
  row !! "strand"%string = Some s →
  row !! "label"%string = Some l →
  db chrom pos pos = Ok (mkIter (before ++ exon :: after) tail) →
  attributes exon !! "transcript_id"%string = Some (""%string :: others) →
  process_row db row = iterate s l pos (mkIter (before ++ after) tail)
  ∧ ∀ recs r, process_row db row = Ok recs → r ∈ recs →
      transcript_id r ≠ None ∧ transcript_id r ≠ Some ""%string.
Proof.
  intros Hc Hp Hi Hs Hl Hdb Hblank.
  assert (process_row db row = iterate s l pos (mkIter (before ++ after) tail)) as Heq.
  { rewrite (process_row_query _ _ _ _ _ _ _ Hc Hp Hi Hs Hl), Hdb.
    apply iterate_delete. intros acc. by eapply exon_body_blank. }
  split; [done |]. intros recs r Hrun Hr. rewrite Heq in Hrun.
  destruct (iterate_elem _ _ _ _ _ _ Hrun Hr)
    as (_ & tid & _ & _ & _ & _ & -> & Hne & _).
  split; [done | congruence].
Qed.

(** X19: the [try] covers the call of [db.region] only: an exception
    that the returned iterable raises while the loop consumes it leaves
    [process_row]. *)
Lemma iteration_failure_propagates db (row : gmap string pyval) chrom posv pos s l
    (exons : list Feature) e recs :
  row !! "chrom"%string = Some chrom →
  row !! "pos"%string = Some posv →
  py_int posv = Ok pos →
  row !! "strand"%string = Some s →
  row !! "label"%string = Some l →
  db chrom pos pos = Ok (mkIter exons (Some e)) →
  exon_loop s l pos [] exons = Ok recs →
  process_row db row = Raise e.
Proof.
  intros Hc Hp Hi Hs Hl Hdb Hloop.
  rewrite (process_row_query _ _ _ _ _ _ _ Hc Hp Hi Hs Hl), Hdb.
  unfold iterate. simpl. by rewrite Hloop.
Qed.

(** ** Properties of the dispatcher *)

Lemma as_completed_shift {A} (x : A) (xs : list A) (order : list nat) :
  as_completed (x :: xs) (S <$> order) = as_completed xs order.
Proof.
  unfold as_completed. induction order as [|i order IH]; csimpl; [done |].
  by rewrite IH.
Qed.

Lemma as_completed_all {A} (futures : list A) :
  as_completed futures (seq 0 (length futures)) = futures.
Proof.
  induction futures as [|x xs IH]; [done |].
  simpl length. rewrite <- cons_seq, <- fmap_S_seq.
  change (as_completed (x :: xs) (0%nat :: (S <$> seq 0 (length xs))))
    with (x :: as_completed (x :: xs) (S <$> seq 0 (length xs))).
  by rewrite as_completed_shift, IH.
Qed.

(** When every task is yielded once, the yielded futures are the
    submitted ones in another order. *)
Lemma as_completed_permutation {A} (futures : list A) (order : list nat) :
  order ≡ₚ seq 0 (length futures) → as_completed futures order ≡ₚ futures.
Proof.
  intros Hperm. unfold as_completed. rewrite Hperm.
  apply reflexive_eq, as_completed_all.
Qed.

(** The loop stops at the first future whose [result()] raises. *)
Lemma collect_failure (completed : list (result (list MappedRecord))) : ∀ acc e,
  Raise e ∈ completed →
  ∃ e', Raise e' ∈ completed ∧ collect acc completed = Raise e'.
Proof.
  induction completed as [|future rest IH]; intros acc e Hin.
  - by apply elem_of_nil in Hin.
  - destruct future as [recs|e0]; simpl.
    + apply elem_of_cons in Hin as [Heq|Hin]; [done |].
      destruct (IH (match recs with [] => acc | _ :: _ => acc ++ recs end) e Hin)
        as (e' & Hin' & Hrun).
      exists e'. split; [by right | done].
    + exists e0. split; [by left | done].
Qed.

(** Without a failing task the records of all tasks are gathered, in
    completion order. *)
Lemma collect_success (completed : list (result (list MappedRecord))) : ∀ acc tasks,
  completed = Ok <$> tasks →
  collect acc completed = Ok (acc ++ concat tasks).
Proof.
  induction completed as [|future rest IH]; intros acc tasks Heq.
  - destruct tasks; [| done]. simpl. by rewrite app_nil_r.
  - destruct tasks as [|recs tasks]; [done |]. injection Heq as -> ->. simpl.
    rewrite (IH _ tasks eq_refl). destruct recs; simpl; [done |].
    by rewrite <- app_assoc.
Qed.

(** C4 (amended): when a task raises an exception that [process_row]
    does not catch, and every task is yielded by the pool, the dispatch
    fails as a whole: [future.result()] raises the exception of a failing
    task in the coordinator and no records are returned. *)
Theorem dispatch_failure_propagates db (input_df : list (gmap string pyval))
    (order : list nat) (i : nat) row e :
  order ≡ₚ seq 0 (length input_df) →
  input_df !! i = Some row →
  process_row db row = Raise e →
  ∃ row' e', row' ∈ input_df
    ∧ process_row db row' = Raise e'
    ∧ dispatch db input_df order = Raise e'.
Proof.
  intros Hperm Hrow Hraise. unfold dispatch.
  assert (as_completed (process_row db <$> input_df) order
          ≡ₚ process_row db <$> input_df) as Hall.
  { apply as_completed_permutation. by rewrite length_fmap. }
  assert (Raise e ∈ as_completed (process_row db <$> input_df) order) as Hin.
  { rewrite Hall, <- Hraise. apply list_elem_of_fmap_2.
    apply list_elem_of_lookup. by exists i. }
  destruct (collect_failure _ [] e Hin) as (e' & Hin' & Hrun).
  rewrite Hall in Hin'. apply list_elem_of_fmap in Hin' as (row' & Heq & Hrow').
  by exists row', e'.
Qed.

(** When no task raises, the dispatch returns the records of all tasks. *)
Lemma dispatch_success db (input_df : list (gmap string pyval)) tasks :
  process_row db <$> input_df = Ok <$> tasks →
  dispatch db input_df (seq 0 (length input_df)) = Ok (concat tasks).
Proof.
  intros Hok. unfold dispatch.
  rewrite <- (length_fmap (process_row db)), as_completed_all.
  by rewrite (collect_success _ [] tasks Hok).
Qed.

(** ** Properties of the pipeline *)

Lemma prepare_returns gtf_file output_folder db_path st :
  (prepare gtf_file output_folder db_path st).1 = Ok ()
  ∧ gppy_runs (prepare gtf_file output_folder db_path st).2 = gppy_runs st.
Proof.
  unfold prepare, mbind, run_bind, path_exists, write_file, makedirs, mret, run_ret.
  simpl. by repeat case_bool_decide.
Qed.

Lemma input_output_distinct (folder : path) :
  folder ++ ["gppy_input.tsv"%string] ≠ folder ++ ["gppy_output.tsv"%string].
Proof. intros Heq. by apply app_inv_head in Heq. Qed.

(** [map_genomic_to_transcript] step by step, with the state after each
    step written out. *)
Lemma map_genomic_to_transcript_steps w (input_df : list (gmap string pyval))
    gtf_file output_folder db_path st :
  let input := output_folder ++ ["gppy_input.tsv"%string] in
  let output := output_folder ++ ["gppy_output.tsv"%string] in
  let merged := output_folder ++ ["gppy_output_labeled.tsv"%string] in
  let st0 := (prepare gtf_file output_folder db_path st).2 in
  map_genomic_to_transcript w input_df gtf_file output_folder db_path st =
  match dispatch (store w) input_df (completion w input_df) with
  | Raise e => (Raise e, st0)
  | Ok records =>
    match key_columns records with
    | Raise e => (Raise e, st0)
    | Ok pairs =>
      let files1 := <[input := InputTsv None pairs]> (files st0) in
      let runs := gppy_runs st0 ++ [(gtf_file, input)] in
      match gppy w gtf_file (Some (InputTsv None pairs)) with
      | Raise e => (Raise e, mkState (<[output := OutputTsv (Table [])]> files1) runs)
      | Ok proc =>
        let files2 :=
          <[output := OutputTsv (stdout proc)]> (<[output := OutputTsv (Table [])]> files1) in
        match read_csv (Some (OutputTsv (stdout proc))) with
        | Raise e => (Raise e, mkState files2 runs)
        | Ok g2t_df =>
            (Ok (input, merged),
             mkState (<[merged := MergedTsv (Some final_columns) (merge_left g2t_df records)]> files2)
                     runs)
        end
      end
    end
  end.
Proof.
  intros input output merged st0. unfold map_genomic_to_transcript.
  unfold mbind at 1. unfold run_bind at 1.
  pose proof (prepare_returns gtf_file output_folder db_path st) as [Hok _].
  fold st0. destruct (prepare gtf_file output_folder db_path st) as [r st0'] eqn:Hprep.
  simpl in Hok, st0. subst r st0.
  fold input output merged.
  unfold mbind, run_bind, lift, write_file, run_gppy, subprocess_run, read_output,
    mret, run_ret, mbind, run_bind. simpl.
  destruct (dispatch (store w) input_df (completion w input_df)) as [records|e]; [| done].
  destruct (key_columns records) as [pairs|e]; [| done]. simpl.
  rewrite lookup_insert_ne by (symmetry; apply input_output_distinct).
  rewrite lookup_insert_eq.
  destruct (gppy w gtf_file (Some (InputTsv None pairs))) as [proc|e]; [| done].
  simpl. rewrite lookup_insert_eq. unfold read_csv.
  by destruct (stdout proc) as [e|[|t ts]].
Qed.

Lemma input_merged_distinct (folder : path) :
  folder ++ ["gppy_input.tsv"%string] ≠ folder ++ ["gppy_output_labeled.tsv"%string].
Proof. intros Heq. by apply app_inv_head in Heq. Qed.

Lemma key_columns_nonempty (records : list MappedRecord) :
  records ≠ [] →
  key_columns records = Ok ((λ r, (transcript_id r, genomic_position r)) <$> records).
Proof. by destruct records. Qed.

(** C9: when the tasks return no MappedRecord at all, the run raises
    [KeyError] at the selection of the two key columns: the state is the
    one the preparation of the folder and the database left, so no input
    file was written and the transform tool was not started. *)
Theorem empty_records_raise w (input_df : list (gmap string pyval))
    gtf_file output_folder db_path st :
  dispatch (store w) input_df (completion w input_df) = Ok [] →
  map_genomic_to_transcript w input_df gtf_file output_folder db_path st
  = (Raise (KeyError "['transcript_id', 'genomic_position']"),
     (prepare gtf_file output_folder db_path st).2)
  ∧ gppy_runs (prepare gtf_file output_folder db_path st).2 = gppy_runs st.
Proof.
  intros Hempty. split; [| apply prepare_returns].
  pose proof (map_genomic_to_transcript_steps w input_df gtf_file output_folder db_path st)
    as Hsteps.
  cbv zeta in Hsteps. rewrite Hsteps, Hempty. done.
Qed.

(** C7: the file handed to the transform tool has no header and holds,
    in order, the (transcript_id, genomic_position) pair of every
    collected MappedRecord, one line per record; records that share a key
    under distinct labels each give their own line.  The tool is started
    once, on that file. *)
Theorem gppy_input_one_line_per_record w (input_df : list (gmap string pyval))
    gtf_file output_folder db_path st records :
  dispatch (store w) input_df (completion w input_df) = Ok records →
  records ≠ [] →
  files (map_genomic_to_transcript w input_df gtf_file output_folder db_path st).2
    !! (output_folder ++ ["gppy_input.tsv"%string])
  = Some (InputTsv None ((λ r, (transcript_id r, genomic_position r)) <$> records))
  ∧ gppy_runs (map_genomic_to_transcript w input_df gtf_file output_folder db_path st).2
    = gppy_runs st ++ [(gtf_file, output_folder ++ ["gppy_input.tsv"%string])].
Proof.
  intros Hdispatch Hne.
  pose proof (map_genomic_to_transcript_steps w input_df gtf_file output_folder db_path st)
    as Hsteps.
  pose proof (prepare_returns gtf_file output_folder db_path st) as [_ Hruns].
  pose proof (input_output_distinct output_folder) as Hio.
  pose proof (input_merged_distinct output_folder) as Him.
  cbv zeta in Hsteps. rewrite Hsteps, Hdispatch, (key_columns_nonempty _ Hne).
  tool_cases proc e.
  - parse_cases g2t_df e; simpl; rewrite Hruns;
      (split; [| done]);
      rewrite ?(lookup_insert_ne _ (output_folder ++ ["gppy_output_labeled.tsv"%string]))
        by (by symmetry);
      rewrite !(lookup_insert_ne _ (output_folder ++ ["gppy_output.tsv"%string]))
        by (by symmetry);
      apply lookup_insert_eq.
  - simpl. rewrite Hruns. split; [| done].
    rewrite lookup_insert_ne by (by symmetry). apply lookup_insert_eq.
Qed.

(** C5 (amended): the run goes on whatever the exit code of the
    transform tool is.  When the tool has exited with any code, zero or
    not, and has printed a table with at least one row, the run parses
    that table, joins it with the collected records, writes the joined
    table and returns normally. *)
Theorem exit_code_not_inspected w (input_df : list (gmap string pyval))
    gtf_file output_folder db_path st records code t ts :
  dispatch (store w) input_df (completion w input_df) = Ok records →
  records ≠ [] →
  gppy w gtf_file
    (Some (InputTsv None ((λ r, (transcript_id r, genomic_position r)) <$> records)))
  = Ok (mkCompleted code (Table (t :: ts))) →
  ∃ st',
    map_genomic_to_transcript w input_df gtf_file output_folder db_path st
    = (Ok (output_folder ++ ["gppy_input.tsv"%string],
           output_folder ++ ["gppy_output_labeled.tsv"%string]), st')
    ∧ files st' !! (output_folder ++ ["gppy_output_labeled.tsv"%string])
      = Some (MergedTsv (Some final_columns) (merge_left (t :: ts) records))
    ∧ files st' !! (output_folder ++ ["gppy_output.tsv"%string])
      = Some (OutputTsv (Table (t :: ts)))
    ∧ gppy_runs st' = gppy_runs st ++ [(gtf_file, output_folder ++ ["gppy_input.tsv"%string])].
Proof.
  intros Hdispatch Hne Htool.
  pose proof (map_genomic_to_transcript_steps w input_df gtf_file output_folder db_path st)
    as Hsteps.
  pose proof (prepare_returns gtf_file output_folder db_path st) as [_ Hruns].
  cbv zeta in Hsteps. rewrite Hsteps, Hdispatch, (key_columns_nonempty _ Hne), Htool.
  simpl. eexists. split; [done |]. simpl. rewrite Hruns.
  split_and!; [apply lookup_insert_eq | | done].
  rewrite lookup_insert_ne; [apply lookup_insert_eq |].
  intros Heq. by apply app_inv_head in Heq.
Qed.

(** What is fatal after the dispatch: a tool that cannot be started, and
    a tool that prints nothing. *)
Lemma tool_failure_fatal w (input_df : list (gmap string pyval))
    gtf_file output_folder db_path st records :
  dispatch (store w) input_df (completion w input_df) = Ok records →
  records ≠ [] →
  (∀ e, gppy w gtf_file
          (Some (InputTsv None ((λ r, (transcript_id r, genomic_position r)) <$> records)))
        = Raise e →
        (map_genomic_to_transcript w input_df gtf_file output_folder db_path st).1
        = Raise e)
  ∧ (∀ code, gppy w gtf_file
          (Some (InputTsv None ((λ r, (transcript_id r, genomic_position r)) <$> records)))
        = Ok (mkCompleted code (Table [])) →
        (map_genomic_to_transcript w input_df gtf_file output_folder db_path st).1
        = Raise EmptyDataError).
Proof.
  intros Hdispatch Hne.
  pose proof (map_genomic_to_transcript_steps w input_df gtf_file output_folder db_path st)
    as Hsteps.
  cbv zeta in Hsteps. rewrite Hsteps, Hdispatch, (key_columns_nonempty _ Hne).
  split; [intros e Htool | intros code Htool]; by rewrite Htool.
Qed.

(** X20: the exit code has no influence at all: two tools that print the
    same thing and fail to start on the same inputs give the same run. *)
Lemma exit_code_irrelevant w w' (input_df : list (gmap string pyval))
    gtf_file output_folder db_path st :
  store w = store w' →
  completion w = completion w' →
  (∀ g f, match gppy w g f, gppy w' g f with
          | Ok proc, Ok proc' => stdout proc = stdout proc'
          | Raise e, Raise e' => e = e'
          | _, _ => False
          end) →
  map_genomic_to_transcript w input_df gtf_file output_folder db_path st
  = map_genomic_to_transcript w' input_df gtf_file output_folder db_path st.
Proof.
  intros Hstore Hcompletion Htool.
  pose proof (map_genomic_to_transcript_steps w input_df gtf_file output_folder db_path st)
    as Hsteps.
  pose proof (map_genomic_to_transcript_steps w' input_df gtf_file output_folder db_path st)
    as Hsteps'.
  cbv zeta in Hsteps, Hsteps'. rewrite Hsteps, Hsteps', Hstore, Hcompletion.
  destruct (dispatch (store w') input_df (completion w' input_df)) as [records|e];
    [| done].
  destruct (key_columns records) as [pairs|e]; [| done].
  specialize (Htool gtf_file (Some (InputTsv None pairs))).
  destruct (gppy w gtf_file (Some (InputTsv None pairs))) as [proc|e],
           (gppy w' gtf_file (Some (InputTsv None pairs))) as [proc'|e']; try done.
  - by rewrite Htool.
  - by subst.
Qed.

(** ** Properties of the result joiner *)

Lemma key_match_spec (t : TransformedRecord) (m : MappedRecord) :
  key_match t m = true
  ↔ transcript_id m = Some (g2t_transcript_id t)
    ∧ genomic_position m = g2t_genomic_position t.
Proof.
  unfold key_match. rewrite andb_true_iff, Z.eqb_eq.
  destruct (transcript_id m) as [tid|].
  - rewrite String.eqb_eq. split; intros [Htid Hpos]; split; congruence.
  - split; intros [Htid Hpos]; done.
Qed.

Lemma matching_sharing_key (t : TransformedRecord) (right : list MappedRecord) :
  matching t right = (λ m, joined t (Some (label m))) <$> sharing_key t right.
Proof.
  unfold sharing_key. induction right as [|m rest IH]; [done |].
  simpl. rewrite filter_cons. destruct (key_match t m) eqn:Hkey.
  - apply key_match_spec in Hkey. rewrite decide_True by done.
    simpl. by rewrite IH.
  - rewrite decide_False; [done |].
    intros Hkey'%key_match_spec. congruence.
Qed.

Lemma merge_left_app (xs ys : list TransformedRecord) (right : list MappedRecord) :
  merge_left (xs ++ ys) right = merge_left xs right ++ merge_left ys right.
Proof.
  induction xs as [|x xs IH]; [done |]. simpl. by rewrite IH, app_assoc.
Qed.

(** C1: the join keeps every row of the transform output, at its place:
    a row whose key is shared by some MappedRecords gives one FinalRecord
    per such record, in their order, each with the row's
    transcript_position and feature and that record's label; a row whose
    key no MappedRecord shares gives one FinalRecord without label.  For
    the row (T1, 1000, 50, exon) and the labels X and Y at (T1, 1000)
    the join is the two rows (T1, 1000, 50, exon, X) and
    (T1, 1000, 50, exon, Y). *)
Theorem left_join_fan_out (before after : list TransformedRecord)
    (t : TransformedRecord) (right : list MappedRecord) :
  (∃ rows,
     merge_left (before ++ t :: after) right
     = merge_left before right ++ rows ++ merge_left after right
     ∧ length rows = Nat.max 1 (length (sharing_key t right))
     ∧ (∀ i m, sharing_key t right !! i = Some m →
          rows !! i = Some (mkFinal (g2t_transcript_id t) (g2t_genomic_position t)
                                    (transcript_position t) (feature t)
                                    (Some (label m))))
     ∧ (sharing_key t right = [] →
          rows = [mkFinal (g2t_transcript_id t) (g2t_genomic_position t)
                          (transcript_position t) (feature t) None]))
  ∧ merge_left [transformed_T1] [mapped_X; mapped_Y]
    = [mkFinal "T1" 1000 50 "exon" (Some (PyStr "X"));
       mkFinal "T1" 1000 50 "exon" (Some (PyStr "Y"))].
Proof.
  split; [| done].
  exists (match matching t right with [] => [joined t None] | found => found end).
  split.
  { by rewrite merge_left_app. }
  rewrite matching_sharing_key.
  destruct (sharing_key t right) as [|m ms]; simpl.
  - split_and!; [done | | done]. intros i m Hnone. by rewrite lookup_nil in Hnone.
  - split_and!; [by rewrite length_fmap | | done].
    intros [|i] m'; simpl; [by intros [= ->] |].
    intros Hm'. by rewrite list_lookup_fmap, Hm'.
Qed.

(** ** Properties of the partition in [main] *)

Lemma isin_spec (v : pyval) (values : list string) :
  isin v values = true ↔ ∃ c, v = PyStr c ∧ c ∈ values.
Proof.
  destruct v as [z|s|]; simpl.
  - split; [done | by intros (c & ? & _)].
  - rewrite bool_decide_eq_true.
    split; [intros ?; by exists s | by intros (c & [= ->] & ?)].
  - split; [done | by intros (c & ? & _)].
Qed.

(** C8: with a non-empty list of validation chromosomes, [main] runs the
    pipeline on the training rows and then on the validation rows; the
    validation rows are exactly the input rows whose chromosome is in the
    list, the training rows are exactly the others, no row is in both,
    and the two frames together are the input frame, row for row. *)
Theorem partition_by_chromosome w (input_df : list InputRow)
    gtf_path output_folder db_path (val_chroms : list string) :
  val_chroms ≠ [] →
  main w input_df gtf_path output_folder db_path val_chroms
  = (map_genomic_to_transcript w (asdict <$> train_df input_df val_chroms)
       gtf_path (output_folder ++ ["train"%string]) db_path;;
     map_genomic_to_transcript w (asdict <$> val_df input_df val_chroms)
       gtf_path (output_folder ++ ["val"%string]) db_path;;
     mret ())
  ∧ (∀ r, r ∈ val_df input_df val_chroms
          ↔ r ∈ input_df ∧ ∃ c, row_chrom r = PyStr c ∧ c ∈ val_chroms)
  ∧ (∀ r, r ∈ train_df input_df val_chroms
          ↔ r ∈ input_df ∧ ¬ ∃ c, row_chrom r = PyStr c ∧ c ∈ val_chroms)
  ∧ (∀ r, r ∈ val_df input_df val_chroms → r ∉ train_df input_df val_chroms)
  ∧ val_df input_df val_chroms ++ train_df input_df val_chroms ≡ₚ input_df.
Proof.
  intros Hne. split_and!.
  - by destruct val_chroms.
  - intros r. unfold val_df. rewrite list_elem_of_filter, isin_spec. apply and_comm.
  - intros r. unfold train_df. rewrite list_elem_of_filter, isin_spec. apply and_comm.
  - intros r. unfold val_df, train_df.
    by intros [Hval _]%list_elem_of_filter [Htrain _]%list_elem_of_filter.
  - apply filter_app_complement.
Qed.

(** ** Further properties of the row mapper *)

Lemma str_ne_true_inv (f : string) (v : pyval) : str_ne f v = true → PyStr f ≠ v.
Proof.
  destruct v as [z|s'|]; simpl; try done.
  destruct (String.eqb_spec f s') as [->|Hne]; [done | congruence].
Qed.

(** One turn of the loop on a feature that does not make the attribute
    lookup fail appends the record the feature stands for, if any. *)
Lemma exon_body_record s l pos acc (exon : Feature) :
  (PyStr (strand exon) = s → attributes exon !! "transcript_id"%string ≠ Some []) →
  exon_body s l pos acc exon = Ok (acc ++ option_list (record_of s l pos exon)).
Proof.
  intros Hvalued. unfold exon_body, get_transcript_id, record_of.
  destruct (str_ne (strand exon) s) eqn:Hs.
  - apply str_ne_true_inv in Hs.
    destruct (attributes exon !! "transcript_id"%string) as [[|tid rest]|];
      rewrite ?decide_False by (by intros [? _]); simpl; by rewrite app_nil_r.
  - apply str_ne_false in Hs. specialize (Hvalued Hs).
    destruct (attributes exon !! "transcript_id"%string) as [[|tid rest]|];
      simpl; [done | | by rewrite app_nil_r].
    destruct (String.eqb_spec tid "") as [->|Hne]; simpl.
    + rewrite decide_False by (by intros [_ ?]). simpl. by rewrite app_nil_r.
    + by rewrite decide_True.
Qed.

Lemma exon_loop_records s l pos (exons : list Feature) : ∀ acc,
  (∀ exon, exon ∈ exons → PyStr (strand exon) = s →
           attributes exon !! "transcript_id"%string ≠ Some []) →
  exon_loop s l pos acc exons = Ok (acc ++ omap (record_of s l pos) exons).
Proof.
  induction exons as [|x xs IH]; intros acc Hvalued; simpl.
  - by rewrite app_nil_r.
  - rewrite exon_body_record by (apply Hvalued; by left). simpl.
    rewrite IH by (intros exon Hin; apply Hvalued; by right).
    f_equal. rewrite <- app_assoc. f_equal.
    by destruct (record_of s l pos x).
Qed.

(** X1: on a row with its four cells and a convertible position, when
    the store answers without raising and no feature on the row's strand
    has a transcript_id attribute without values, the row mapper returns,
    in the order of the store's answer, exactly one record for every
    feature on the row's strand whose first transcript_id is a non-empty
    string, each with the row's position and label, and nothing else. *)
Theorem process_row_records db (row : gmap string pyval) chrom posv pos s l
    (exons : list Feature) :
  row !! "chrom"%string = Some chrom →
  row !! "pos"%string = Some posv →
  py_int posv = Ok pos →
  row !! "strand"%string = Some s →
  row !! "label"%string = Some l →
  db chrom pos pos = Ok (mkIter exons None) →
  (∀ exon, exon ∈ exons → PyStr (strand exon) = s →
           attributes exon !! "transcript_id"%string ≠ Some []) →
  process_row db row = Ok (omap (record_of s l pos) exons)
  ∧ (length (omap (record_of s l pos) exons) ≤ length exons)%nat.
Proof.
  intros Hc Hp Hi Hs Hl Hdb Hvalued. split.
  - rewrite (process_row_query _ _ _ _ _ _ _ Hc Hp Hi Hs Hl), Hdb.
    unfold iterate. simpl. by rewrite (exon_loop_records _ _ _ _ [] Hvalued).
  - clear. induction exons as [|x xs IH]; csimpl; [done |].
    destruct (record_of s l pos x); simpl; lia.
Qed.


(** X3: a position cell that [int] rejects, such as the NaN of a missing
    cell, makes [process_row] raise [ValueError] before the store is
    asked; the [try] does not cover the conversion. *)
Theorem process_row_bad_position db (row : gmap string pyval) posv :
  is_Some (row !! "chrom"%string) →
  row !! "pos"%string = Some posv →
  (∀ pos, py_int posv ≠ Ok pos) →
  process_row db row = Raise ValueError.
Proof.
  intros [chrom Hc] Hp Hbad. unfold process_row, getitem. rewrite Hc, Hp. simpl.
  destruct posv as [z|str|]; simpl in *.
  - by destruct (Hbad z).
  - destruct (int_of_str str) as [z|]; [by destruct (Hbad z) | done].
  - done.
Qed.

Lemma exon_body_raises s l pos acc (exon : Feature) e :
  exon_body s l pos acc exon = Raise e → e = IndexError.
Proof.
  unfold exon_body, get_transcript_id.
  destruct (str_ne (strand exon) s); [done |].
  destruct (attributes exon !! "transcript_id"%string) as [[|tid rest]|]; simpl.
  - by intros [= <-].
  - by case_match.
  - done.
Qed.

Lemma exon_body_unvalued s l pos acc (exon : Feature) :
  PyStr (strand exon) = s →
  attributes exon !! "transcript_id"%string = Some [] →
  exon_body s l pos acc exon = Raise IndexError.
Proof.
  intros <- Hattr. unfold exon_body, get_transcript_id. rewrite Hattr. simpl.
  by destruct (String.eqb_spec (strand exon) (strand exon)).
Qed.

Lemma exon_loop_unvalued s l pos (exons : list Feature) (exon : Feature) : ∀ acc,
  exon ∈ exons →
  PyStr (strand exon) = s →
  attributes exon !! "transcript_id"%string = Some [] →
  exon_loop s l pos acc exons = Raise IndexError.
Proof.
  induction exons as [|x xs IH]; intros acc Hin Hs Hattr.
  - by apply elem_of_nil in Hin.
  - simpl. destruct (exon_body s l pos acc x) as [acc'|e] eqn:Hbody; simpl.
    + apply elem_of_cons in Hin as [->|Hin]; [| by apply IH].
      by rewrite exon_body_unvalued in Hbody.
    + by rewrite (exon_body_raises _ _ _ _ _ _ Hbody).
Qed.

(** X4: a feature on the row's strand whose transcript_id attribute is
    present without any value makes the indexing [...][0] fail:
    [process_row] raises [IndexError] and returns none of the records of
    the other features. *)
Theorem empty_attribute_list_raises db (row : gmap string pyval) chrom posv pos s l
    (exons : list Feature) tail (exon : Feature) :
  row !! "chrom"%string = Some chrom →
  row !! "pos"%string = Some posv →
  py_int posv = Ok pos →
  row !! "strand"%string = Some s →
  row !! "label"%string = Some l →
  db chrom pos pos = Ok (mkIter exons tail) →
  exon ∈ exons →
  PyStr (strand exon) = s →
  attributes exon !! "transcript_id"%string = Some [] →
  process_row db row = Raise IndexError.
Proof.
  intros Hc Hp Hi Hs Hl Hdb Hin Hstrand Hattr.
  rewrite (process_row_query _ _ _ _ _ _ _ Hc Hp Hi Hs Hl), Hdb.
  unfold iterate. simpl.
  by rewrite (exon_loop_unvalued _ _ _ _ _ [] Hin Hstrand Hattr).
Qed.

(** ** Further properties of the dispatcher *)

Lemma as_completed_fmap {A B} (f : A → B) (futures : list A) (order : list nat) :
  as_completed (f <$> futures) order = f <$> as_completed futures order.
Proof.
  unfold as_completed. induction order as [|i order IH]; csimpl; [done |].
  rewrite list_lookup_fmap. destruct (futures !! i); csimpl; by rewrite IH.
Qed.

Lemma as_completed_nil {A} (order : list nat) : as_completed (@nil A) order = [].
Proof. unfold as_completed. induction order as [|i order IH]; csimpl; done. Qed.

Lemma as_completed_elem {A} (futures : list A) (order : list nat) x :
  x ∈ as_completed futures order → x ∈ futures.
Proof.
  unfold as_completed. intros (i & _ & Hi)%list_elem_of_omap.
  apply list_elem_of_lookup. by exists i.
Qed.

Lemma concat_permutation {A} (l l' : list (list A)) : l ≡ₚ l' → concat l ≡ₚ concat l'.
Proof.
  induction 1 as [|x l l' _ IH|x y l|l l' l'' _ IH1 _ IH2]; simpl.
  - done.
  - by rewrite IH.
  - rewrite !app_assoc. f_equiv. apply Permutation_app_comm.
  - by rewrite IH1.
Qed.

Lemma collect_elem (completed : list (result (list MappedRecord))) : ∀ acc recs r,
  collect acc completed = Ok recs → r ∈ recs →
  r ∈ acc ∨ ∃ rs, Ok rs ∈ completed ∧ r ∈ rs.
Proof.
  induction completed as [|future rest IH]; intros acc recs r; simpl.
  - intros [= <-]. by left.
  - destruct future as [rs|e]; simpl; [| done]. intros Hrun Hr.
    destruct (IH _ _ _ Hrun Hr) as [Hacc|(rs' & Hin & Hr')].
    + destruct rs as [|r0 rs]; [by left |].
      apply elem_of_app in Hacc as [?|?]; [by left |].
      right. exists (r0 :: rs). split; [by left | done].
    + right. exists rs'. split; [by right | done].
Qed.

(** X5: when no task raises and the pool yields every task once, the
    dispatch returns the records of all tasks, each as often as the tasks
    returned it: the result is a rearrangement of the concatenation of
    the task results, whatever the completion order. *)
Theorem dispatch_any_order db (input_df : list (gmap string pyval))
    (order : list nat) (tasks : list (list MappedRecord)) :
  process_row db <$> input_df = Ok <$> tasks →
  order ≡ₚ seq 0 (length input_df) →
  ∃ recs, dispatch db input_df order = Ok recs ∧ recs ≡ₚ concat tasks.
Proof.
  intros Hok Hperm. unfold dispatch. rewrite Hok, as_completed_fmap.
  exists (concat (as_completed tasks order)). split.
  - by rewrite (collect_success _ [] _ eq_refl).
  - apply concat_permutation, as_completed_permutation.
    apply (f_equal length) in Hok. rewrite !length_fmap in Hok. by rewrite <- Hok.
Qed.

(** X6: the dispatch returns no record of its own: every record of a
    successful dispatch was returned by the task of some row of the
    input frame. *)
Theorem dispatch_records_origin db (input_df : list (gmap string pyval))
    (order : list nat) recs r :
  dispatch db input_df order = Ok recs →
  r ∈ recs →
  ∃ row rs, row ∈ input_df ∧ process_row db row = Ok rs ∧ r ∈ rs.
Proof.
  unfold dispatch. intros Hrun Hr.
  destruct (collect_elem _ _ _ _ Hrun Hr) as [Hnil|(rs & Hin & Hrs)].
  - by apply elem_of_nil in Hnil.
  - apply as_completed_elem, list_elem_of_fmap in Hin as (row & Heq & Hrow).
    by exists row, rs.
Qed.

Lemma dispatch_nil db (order : list nat) : dispatch db [] order = Ok [].
Proof. unfold dispatch. simpl. by rewrite as_completed_nil. Qed.

(** ** Further properties of the pipeline *)

Lemma parents_prefix (p q : path) : q ∈ parents p → q `prefix_of` p ∧ q ≠ p.
Proof.
  unfold parents. intros (n & -> & Hn)%list_elem_of_fmap.
  apply elem_of_seq in Hn. split; [apply prefix_take |].
  intros Heq. apply (f_equal length) in Heq. rewrite length_take in Heq. lia.
Qed.


Lemma mkdirs_existing (ps : list path) (fs : gmap (list string) file) (p : path) :
  is_Some (fs !! p) → foldr mkdir_missing fs ps !! p = fs !! p.
Proof.
  intros Hp. induction ps as [|q ps IH]; [done |]. simpl. unfold mkdir_missing at 1.
  destruct (foldr mkdir_missing fs ps !! q) eqn:Hq; [done |].
  rewrite lookup_insert_ne; [done |].
  intros <-. rewrite IH in Hq. rewrite Hq in Hp. by destruct Hp.
Qed.

Lemma mkdirs_other (ps : list path) (fs : gmap (list string) file) (p : path) :
  p ∉ ps → foldr mkdir_missing fs ps !! p = fs !! p.
Proof.
  induction ps as [|q ps IH]; [done |]. rewrite not_elem_of_cons. intros [Hne Hin].
  simpl. unfold mkdir_missing at 1.
  destruct (foldr mkdir_missing fs ps !! q); [by apply IH |].
  rewrite lookup_insert_ne by done. by apply IH.
Qed.


(** The file system after [makedirs]. *)
Lemma makedirs_existing (folder : path) st (p : path) :
  files st !! folder = None → is_Some (files st !! p) →
  files (makedirs folder st).2 !! p = files st !! p.
Proof.
  intros Hnone Hp. unfold makedirs. simpl.
  rewrite lookup_insert_ne; [by apply mkdirs_existing |].
  intros <-. rewrite Hnone in Hp. by destruct Hp.
Qed.

Lemma makedirs_other (folder : path) st (p : path) :
  ¬ p `prefix_of` folder →
  files (makedirs folder st).2 !! p = files st !! p.
Proof.
  intros Hp. unfold makedirs. simpl.
  rewrite lookup_insert_ne by (by intros <-).
  apply mkdirs_other. by intros [? _]%parents_prefix.
Qed.


Lemma prepare_files_existing gtf_file output_folder db_path st (p : path) :
  is_Some (files st !! p) →
  files (prepare gtf_file output_folder db_path st).2 !! p = files st !! p.
Proof.
  intros Hp. unfold prepare, mbind, run_bind, path_exists, write_file, mret, run_ret.
  simpl. case_bool_decide as Hfolder; simpl.
  - case_bool_decide as Hdb; simpl; [done |].
    rewrite lookup_insert_ne; [done |]. by intros <-.
  - assert (files st !! output_folder = None) as Hnone.
    { by apply eq_None_not_Some. }
    pose proof (makedirs_existing output_folder st p Hnone Hp) as Hkept.
    unfold makedirs in Hkept. simpl in Hkept.
    case_bool_decide as Hdb; simpl; [exact Hkept |].
    rewrite lookup_insert_ne; [exact Hkept |].
    intros <-. apply Hdb. by rewrite Hkept.
Qed.

Lemma prepare_files_other gtf_file output_folder db_path st (p : path) :
  ¬ p `prefix_of` output_folder → p ≠ db_path →
  files (prepare gtf_file output_folder db_path st).2 !! p = files st !! p.
Proof.
  intros Hf Hd. unfold prepare, mbind, run_bind, path_exists, write_file, mret, run_ret.
  simpl. case_bool_decide as Hfolder; simpl.
  - case_bool_decide as Hdb; simpl; by rewrite ?lookup_insert_ne.
  - pose proof (makedirs_other output_folder st p Hf) as Hkept.
    unfold makedirs in Hkept. simpl in Hkept.
    case_bool_decide as Hdb; simpl; rewrite ?lookup_insert_ne by done; exact Hkept.
Qed.





(** The files of a run outside its three output files are those the
    preparation left. *)
Lemma run_files_other w (input_df : list (gmap string pyval))
    gtf_file output_folder db_path st (p : path) :
  p ∉ output_files output_folder →
  files (map_genomic_to_transcript w input_df gtf_file output_folder db_path st).2 !! p
  = files (prepare gtf_file output_folder db_path st).2 !! p.
Proof.
  unfold output_files. rewrite !not_elem_of_cons. intros (Hin & Hout & Hmerged & _).
  pose proof (map_genomic_to_transcript_steps w input_df gtf_file output_folder db_path st)
    as Hsteps.
  cbv zeta in Hsteps. rewrite Hsteps.
  destruct (dispatch (store w) input_df (completion w input_df)) as [records|e]; [| done].
  destruct (key_columns records) as [pairs|e]; [| done].
  tool_cases proc e; [parse_cases g2t_df e' |]; simpl;
    by rewrite ?lookup_insert_ne by done.
Qed.

(** X8: a run changes no file but its own: a path other than the three
    files of the output folder keeps its content when it existed before
    the run, or when it is neither the output folder, nor one of its
    parents, nor the database path. *)
Theorem run_leaves_other_files w (input_df : list (gmap string pyval))
    gtf_file output_folder db_path st (p : path) :
  p ∉ output_files output_folder →
  is_Some (files st !! p) ∨ (¬ p `prefix_of` output_folder ∧ p ≠ db_path) →
  files (map_genomic_to_transcript w input_df gtf_file output_folder db_path st).2 !! p
  = files st !! p.
Proof.
  intros Hp Hkeep. rewrite run_files_other by done.
  destruct Hkeep as [Hsome|[Hf Hd]].
  - by apply prepare_files_existing.
  - by apply prepare_files_other.
Qed.

Lemma output_files_inside (output_folder p : path) :
  p ∈ output_files output_folder → ¬ p `prefix_of` output_folder.
Proof.
  unfold output_files. rewrite !elem_of_cons, elem_of_nil.
  intros [->|[->|[->|[]]]]; apply prefix_snoc_not.
Qed.

(** X9: when a task raises, the run raises the same exception right
    after the dispatch: the state is the one the preparation left, so
    the folder and the database exist but no file of the run was written
    and the transform tool was not started. *)
Theorem dispatch_failure_writes_nothing w (input_df : list (gmap string pyval))
    gtf_file output_folder db_path st e :
  dispatch (store w) input_df (completion w input_df) = Raise e →
  map_genomic_to_transcript w input_df gtf_file output_folder db_path st
  = (Raise e, (prepare gtf_file output_folder db_path st).2)
  ∧ gppy_runs (prepare gtf_file output_folder db_path st).2 = gppy_runs st
  ∧ ∀ p : path, p ∈ output_files output_folder → p ≠ db_path →
      files (prepare gtf_file output_folder db_path st).2 !! p = files st !! p.
Proof.
  intros Hraise.
  pose proof (map_genomic_to_transcript_steps w input_df gtf_file output_folder db_path st)
    as Hsteps.
  cbv zeta in Hsteps. rewrite Hsteps, Hraise.
  split_and!; [done | apply prepare_returns |].
  intros p Hp. apply prepare_files_other. by apply output_files_inside.
Qed.

(** X10: when the transform tool cannot be started, the run raises the
    exception of [subprocess.run]; the input file has been written, the
    output file has been created empty, and no joined table is written. *)
Theorem tool_not_started_fatal w (input_df : list (gmap string pyval))
    gtf_file output_folder db_path st records e :
  dispatch (store w) input_df (completion w input_df) = Ok records →
  records ≠ [] →
  gppy w gtf_file
    (Some (InputTsv None ((λ r, (transcript_id r, genomic_position r)) <$> records)))
  = Raise e →
  ∃ st',
    map_genomic_to_transcript w input_df gtf_file output_folder db_path st = (Raise e, st')
    ∧ files st' !! (output_folder ++ ["gppy_input.tsv"%string])
      = Some (InputTsv None ((λ r, (transcript_id r, genomic_position r)) <$> records))
    ∧ files st' !! (output_folder ++ ["gppy_output.tsv"%string])
      = Some (OutputTsv (Table []))
    ∧ files st' !! (output_folder ++ ["gppy_output_labeled.tsv"%string])
      = files (prepare gtf_file output_folder db_path st).2
          !! (output_folder ++ ["gppy_output_labeled.tsv"%string]).
Proof.
  intros Hdispatch Hne Htool.
  pose proof (map_genomic_to_transcript_steps w input_df gtf_file output_folder db_path st)
    as Hsteps.
  cbv zeta in Hsteps. rewrite Hsteps, Hdispatch, (key_columns_nonempty _ Hne), Htool.
  eexists. split; [done |]. simpl. split_and!.
  - rewrite lookup_insert_ne by (symmetry; apply input_output_distinct).
    apply lookup_insert_eq.
  - apply lookup_insert_eq.
  - rewrite !lookup_insert_ne; [done | |].
    + apply input_merged_distinct.
    + intros Heq. by apply app_inv_head in Heq.
Qed.

(** X11: when the tool has exited, with any exit code, and its output
    cannot be read as a table, in particular when it printed nothing,
    the run raises the exception of the parse; the output file holds
    what the tool printed and no joined table is written. *)
Theorem unusable_output_fatal w (input_df : list (gmap string pyval))
    gtf_file output_folder db_path st records proc e :
  dispatch (store w) input_df (completion w input_df) = Ok records →
  records ≠ [] →
  gppy w gtf_file
    (Some (InputTsv None ((λ r, (transcript_id r, genomic_position r)) <$> records)))
  = Ok proc →
  read_csv (Some (OutputTsv (stdout proc))) = Raise e →
  (stdout proc = Table [] → e = EmptyDataError)
  ∧ ∃ st',
      map_genomic_to_transcript w input_df gtf_file output_folder db_path st = (Raise e, st')
      ∧ files st' !! (output_folder ++ ["gppy_output.tsv"%string])
        = Some (OutputTsv (stdout proc))
      ∧ files st' !! (output_folder ++ ["gppy_output_labeled.tsv"%string])
        = files (prepare gtf_file output_folder db_path st).2
            !! (output_folder ++ ["gppy_output_labeled.tsv"%string]).
Proof.
  intros Hdispatch Hne Htool Hparse. split.
  { intros Hout. rewrite Hout in Hparse. simpl in Hparse. congruence. }
  pose proof (map_genomic_to_transcript_steps w input_df gtf_file output_folder db_path st)
    as Hsteps.
  cbv zeta in Hsteps.
  rewrite Hsteps, Hdispatch, (key_columns_nonempty _ Hne), Htool, Hparse.
  eexists. split; [done |]. simpl. split.
  - apply lookup_insert_eq.
  - rewrite !lookup_insert_ne; [done | | |].
    + apply input_merged_distinct.
    + intros Heq. by apply app_inv_head in Heq.
    + intros Heq. by apply app_inv_head in Heq.
Qed.

(** ** Further properties of the result joiner *)

(** The rows the join emits for one row of the transform output. *)
Lemma merge_left_cons (t : TransformedRecord) (left : list TransformedRecord)
    (right : list MappedRecord) :
  merge_left (t :: left) right
  = match sharing_key t right with
    | [] => [joined t None]
    | found => (λ m, joined t (Some (label m))) <$> found
    end ++ merge_left left right.
Proof.
  simpl. rewrite matching_sharing_key. by destruct (sharing_key t right).
Qed.

(** X12: the joined table has, for every row of the transform output,
    as many rows as there are MappedRecords sharing its key, and one row
    when there is none; so it never has fewer rows than the transform
    output. *)
Theorem merge_left_length (left : list TransformedRecord) (right : list MappedRecord) :
  length (merge_left left right)
  = sum_list_with (λ t, Nat.max 1 (length (sharing_key t right))) left
  ∧ (length left ≤ length (merge_left left right))%nat.
Proof.
  induction left as [|t left [IHsum IHle]]; [done |].
  rewrite merge_left_cons, length_app. simpl sum_list_with. rewrite <- IHsum.
  destruct (sharing_key t right) as [|m ms]; simpl; rewrite ?length_fmap; lia.
Qed.

(** X13: the joined table holds nothing but joins: a FinalRecord is in
    it exactly when it repeats the four fields of some row of the
    transform output and carries either the label of a MappedRecord
    sharing that row's key, or no label when no MappedRecord shares the
    key. *)
Theorem merge_left_elem (left : list TransformedRecord) (right : list MappedRecord)
    (f : FinalRecord) :
  f ∈ merge_left left right ↔
  ∃ t, t ∈ left
    ∧ final_transcript_id f = g2t_transcript_id t
    ∧ final_genomic_position f = g2t_genomic_position t
    ∧ final_transcript_position f = transcript_position t
    ∧ final_feature f = feature t
    ∧ ((final_label f = None ∧ sharing_key t right = [])
       ∨ ∃ m, m ∈ right
           ∧ transcript_id m = Some (g2t_transcript_id t)
           ∧ genomic_position m = g2t_genomic_position t
           ∧ final_label f = Some (label m)).
Proof.
  induction left as [|t left IH].
  - simpl. rewrite elem_of_nil. split; [done |].
    intros (t & Hin & _). by apply elem_of_nil in Hin.
  - rewrite merge_left_cons, elem_of_app, IH. clear IH. split.
    + intros [Hhere|(t' & Hin & Hrest)]; [| exists t'; split; [by right | done]].
      exists t. split; [by left |].
      destruct (sharing_key t right) as [|m ms] eqn:Hshare.
      * apply list_elem_of_singleton in Hhere as ->. simpl. split_and!; try done.
        by left.
      * apply list_elem_of_fmap in Hhere as (m' & -> & Hm'). simpl.
        split_and!; try done. right. exists m'.
        rewrite <- Hshare in Hm'. unfold sharing_key in Hm'.
        apply list_elem_of_filter in Hm' as [[Htid Hpos] Hright]. done.
    + intros (t' & Hin & Htid & Hpos & Htp & Hfeat & Hlabel).
      apply elem_of_cons in Hin as [->|Hin]; [| right; by exists t'].
      left. destruct f as [ftid fpos ftp ffeat flabel]. simpl in *. subst.
      destruct Hlabel as [[-> Hnone]|(m & Hright & Hmtid & Hmpos & ->)].
      * rewrite Hnone. by apply list_elem_of_singleton.
      * assert (m ∈ sharing_key t right) as Hm.
        { unfold sharing_key. by apply list_elem_of_filter. }
        destruct (sharing_key t right) as [|m0 ms] eqn:Hshare;
          [by apply elem_of_nil in Hm |].
        exact (list_elem_of_fmap_2 (λ m, joined t (Some (label m))) _ _ Hm).
Qed.

Lemma merge_left_permutation_right (left : list TransformedRecord)
    (right right' : list MappedRecord) :
  right ≡ₚ right' → merge_left left right ≡ₚ merge_left left right'.
Proof.
  intros Hperm. induction left as [|t left IH]; [done |].
  rewrite !merge_left_cons, IH. f_equiv.
  assert (sharing_key t right ≡ₚ sharing_key t right') as Hshare.
  { unfold sharing_key. by rewrite Hperm. }
  destruct (sharing_key t right) as [|m ms].
  - apply Permutation_nil_l in Hshare. by rewrite <- Hshare.
  - destruct (sharing_key t right') as [|m' ms'].
    + by apply Permutation_nil_r in Hshare.
    + by rewrite Hshare.
Qed.

Lemma merge_left_permutation_left (left left' : list TransformedRecord)
    (right : list MappedRecord) :
  left ≡ₚ left' → merge_left left right ≡ₚ merge_left left' right.
Proof.
  induction 1 as [|t l l' _ IH|t t' l|l l' l'' _ IH1 _ IH2].
  - done.
  - rewrite !merge_left_cons. by rewrite IH.
  - rewrite !merge_left_cons, !app_assoc. f_equiv. apply Permutation_app_comm.
  - by rewrite IH1.
Qed.

(** X14: the joined table does not depend on the order of its inputs
    beyond the order of its own rows: rearranging the collected
    MappedRecords, as another completion order of the workers does, or
    the rows of the transform output, rearranges the joined rows and
    neither adds nor removes one. *)
Theorem merge_left_permutation (left left' : list TransformedRecord)
    (right right' : list MappedRecord) :
  left ≡ₚ left' → right ≡ₚ right' →
  merge_left left right ≡ₚ merge_left left' right'.
Proof.
  intros Hleft Hright.
  rewrite (merge_left_permutation_left _ _ _ Hleft).
  by apply merge_left_permutation_right.
Qed.

(** ** Further properties of [main] *)

Lemma main_validation w (input_df : list InputRow)
    gtf_path output_folder db_path (val_chroms : list string) st :
  val_chroms ≠ [] →
  main w input_df gtf_path output_folder db_path val_chroms st
  = match map_genomic_to_transcript w (asdict <$> train_df input_df val_chroms)
            gtf_path (output_folder ++ ["train"%string]) db_path st with
    | (Raise e, st1) => (Raise e, st1)
    | (Ok _, st1) =>
        match map_genomic_to_transcript w (asdict <$> val_df input_df val_chroms)
                gtf_path (output_folder ++ ["val"%string]) db_path st1 with
        | (Raise e, st2) => (Raise e, st2)
        | (Ok _, st2) => (Ok (), st2)
        end
    end.
Proof.
  intros Hne. destruct val_chroms as [|c cs]; [done |].
  unfold main, mbind, run_bind, mret, run_ret.
  destruct (map_genomic_to_transcript w (asdict <$> train_df input_df (c :: cs))
              gtf_path (output_folder ++ ["train"%string]) db_path st) as [[paths|e] st1];
    [| done].
  by destruct (map_genomic_to_transcript w (asdict <$> val_df input_df (c :: cs))
                 gtf_path (output_folder ++ ["val"%string]) db_path st1) as [[paths'|e] st2].
Qed.

(** X15: with a validation list, a training run that raises ends [main]
    with that exception: the validation run is not started and the
    state is the one the training run left. *)
Theorem train_failure_skips_validation w (input_df : list InputRow)
    gtf_path output_folder db_path (val_chroms : list string) st e :
  val_chroms ≠ [] →
  (map_genomic_to_transcript w (asdict <$> train_df input_df val_chroms)
     gtf_path (output_folder ++ ["train"%string]) db_path st).1 = Raise e →
  main w input_df gtf_path output_folder db_path val_chroms st
  = (Raise e,
     (map_genomic_to_transcript w (asdict <$> train_df input_df val_chroms)
        gtf_path (output_folder ++ ["train"%string]) db_path st).2).
Proof.
  intros Hne Hraise. rewrite main_validation by done.
  destruct (map_genomic_to_transcript w (asdict <$> train_df input_df val_chroms)
              gtf_path (output_folder ++ ["train"%string]) db_path st) as [[paths|e'] st1];
    simpl in *; congruence.
Qed.

(** X16: with a validation list that selects no row, [main] fails even
    when the training run succeeds: the validation run collects no
    record and raises [KeyError] after its folder has been prepared,
    without starting the transform tool again. *)
Theorem no_validation_rows_fatal w (input_df : list InputRow)
    gtf_path output_folder db_path (val_chroms : list string) st paths :
  val_chroms ≠ [] →
  val_df input_df val_chroms = [] →
  (map_genomic_to_transcript w (asdict <$> train_df input_df val_chroms)
     gtf_path (output_folder ++ ["train"%string]) db_path st).1 = Ok paths →
  main w input_df gtf_path output_folder db_path val_chroms st
  = (Raise (KeyError "['transcript_id', 'genomic_position']"),
     (prepare gtf_path (output_folder ++ ["val"%string]) db_path
        (map_genomic_to_transcript w (asdict <$> train_df input_df val_chroms)
           gtf_path (output_folder ++ ["train"%string]) db_path st).2).2).
Proof.
  intros Hne Hempty Htrain. rewrite main_validation by done. rewrite Hempty.
  destruct (map_genomic_to_transcript w (asdict <$> train_df input_df val_chroms)
              gtf_path (output_folder ++ ["train"%string]) db_path st) as [[paths'|e'] st1];
    simpl in *; [| done].
  pose proof (map_genomic_to_transcript_steps w [] gtf_path
                (output_folder ++ ["val"%string]) db_path st1) as Hsteps.
  cbv zeta in Hsteps. rewrite dispatch_nil in Hsteps. simpl in Hsteps.
  by rewrite Hsteps.
Qed.

(** X17: a chromosome cell that is not a string is never in the
    validation list, whose values are strings: a frame whose chromosome
    column holds numbers sends every row to the training run and none to
    the validation run. *)
Theorem non_string_chromosomes_all_train (input_df : list InputRow)
    (val_chroms : list string) :
  (∀ r, r ∈ input_df → ∀ c, row_chrom r ≠ PyStr c) →
  val_df input_df val_chroms = [] ∧ train_df input_df val_chroms = input_df.
Proof.
  intros Hnum. unfold val_df, train_df.
  induction input_df as [|r rows IH]; [done |].
  destruct IH as [IHval IHtrain]; [intros r' Hin; apply Hnum; by right |].
  assert (isin (row_chrom r) val_chroms = false) as Hout.
  { destruct (row_chrom r) as [z|c|] eqn:Hchrom; [done | | done].
    destruct (Hnum r ltac:(by left) c Hchrom). }
  rewrite !filter_cons, IHval, IHtrain.
  rewrite decide_False by (by rewrite Hout).
  by rewrite decide_True by (by rewrite Hout).
Qed.

(** X18: the validation run leaves the joined table of the training run
    alone, even when the database path lies in the training folder: after
    a training run that succeeded, whatever the validation run does, the
    table the training run wrote is still in its file at the end of
    [main]. *)
Theorem validation_keeps_training_output w (input_df : list InputRow)
    gtf_path output_folder db_path (val_chroms : list string) st paths :
  val_chroms ≠ [] →
  (map_genomic_to_transcript w (asdict <$> train_df input_df val_chroms)
     gtf_path (output_folder ++ ["train"%string]) db_path st).1 = Ok paths →
  ∃ rows,
    files (map_genomic_to_transcript w (asdict <$> train_df input_df val_chroms)
             gtf_path (output_folder ++ ["train"%string]) db_path st).2
      !! (output_folder ++ ["train"; "gppy_output_labeled.tsv"]%string)
    = Some (MergedTsv (Some final_columns) rows)
    ∧ files (main w input_df gtf_path output_folder db_path val_chroms st).2
        !! (output_folder ++ ["train"; "gppy_output_labeled.tsv"]%string)
      = Some (MergedTsv (Some final_columns) rows).
Proof.
  intros Hne Htrain.
  assert (∃ rows,
    files (map_genomic_to_transcript w (asdict <$> train_df input_df val_chroms)
             gtf_path (output_folder ++ ["train"%string]) db_path st).2
      !! (output_folder ++ ["train"; "gppy_output_labeled.tsv"]%string)
    = Some (MergedTsv (Some final_columns) rows)) as [rows Hrows].
  { pose proof (map_genomic_to_transcript_steps w (asdict <$> train_df input_df val_chroms)
                  gtf_path (output_folder ++ ["train"%string]) db_path st) as Hsteps.
    cbv zeta in Hsteps. rewrite Hsteps in Htrain |- *.
    destruct (dispatch _ _ _) as [records|e]; [| done].
    destruct (key_columns records) as [pairs|e]; [| done].
    revert Htrain. tool_cases proc e; [parse_cases g2t_df e' |]; try done.
    intros _. eexists. simpl. rewrite <- app_assoc. apply lookup_insert_eq. }
  exists rows. split; [done |].
  rewrite main_validation by done.
  destruct (map_genomic_to_transcript w (asdict <$> train_df input_df val_chroms)
              gtf_path (output_folder ++ ["train"%string]) db_path st)
    as [[paths'|e'] st1]; simpl in *; [| done].
  assert (files (map_genomic_to_transcript w (asdict <$> val_df input_df val_chroms)
                   gtf_path (output_folder ++ ["val"%string]) db_path st1).2
            !! (output_folder ++ ["train"; "gppy_output_labeled.tsv"]%string)
          = files st1 !! (output_folder ++ ["train"; "gppy_output_labeled.tsv"]%string))
    as Hkept.
  { rewrite run_files_other.
    - apply prepare_files_existing. by rewrite Hrows.
    - unfold output_files. rewrite !not_elem_of_cons.
      split_and!; [| | | apply not_elem_of_nil];
        rewrite <- app_assoc; intros Heq; by apply app_inv_head in Heq. }
  destruct (map_genomic_to_transcript w (asdict <$> val_df input_df val_chroms)
              gtf_path (output_folder ++ ["val"%string]) db_path st1)
    as [[paths''|e''] st2]; simpl in *; by rewrite Hkept.
Qed.

End G2T.

(** ** The properties at work on the sample data *)

Lemma strand_filter_exact_witness :
  process_row int_of_no_str (store_of [exon_T1 "-"]) (asdict row_X) = Ok [].
Proof.
  destruct (strand_filter_exact int_of_no_str (store_of [exon_T1 "-"]) (asdict row_X)
              (PyStr "1") (PyInt 1000) 1000 (PyStr "+") (PyStr "X")
              [] [] (exon_T1 "-") None) as [Hrun _];
    [reflexivity .. | discriminate | exact Hrun].
Defined.



Lemma mapped_transcript_id_present_witness :
  process_row int_of_no_str (store_of [exon_anonymous; exon_T1 "+"]) (asdict row_X)
  = Ok [mapped_X]
  ∧ ∃ tid, transcript_id mapped_X = Some tid ∧ tid ≠ ""%string.
Proof.
  destruct (mapped_transcript_id_present int_of_no_str
              (store_of [exon_anonymous; exon_T1 "+"]) (asdict row_X)) as [Hall Hdrop].
  assert (process_row int_of_no_str (store_of [exon_anonymous; exon_T1 "+"]) (asdict row_X)
          = Ok [mapped_X]) as Hrun.
  { rewrite (Hdrop (PyStr "1") (PyInt 1000) 1000 (PyStr "+") (PyStr "X")
               [] exon_anonymous [exon_T1 "+"] None); reflexivity. }
  split; [exact Hrun |].
  assert (mapped_X ∈ [mapped_X]) as Hin by (by left).
  destruct (Hall [mapped_X] mapped_X Hrun Hin)
    as (chrom & posv & pos & it & exon & tid & rest & _ & _ & _ & _ & _ & _ & Htid & Hne & _).
  by exists tid.
Defined.

Lemma blank_transcript_id_dropped_witness :
  process_row int_of_no_str (store_of [exon_blank; exon_T1 "+"]) (asdict row_X)
  = Ok [mapped_X].
Proof.
  destruct (blank_transcript_id_dropped int_of_no_str
              (store_of [exon_blank; exon_T1 "+"]) (asdict row_X)
              (PyStr "1") (PyInt 1000) 1000 (PyStr "+") (PyStr "X")
              [] [exon_T1 "+"] exon_blank [] None) as [Hrun _];
    [reflexivity .. | rewrite Hrun; reflexivity].
Defined.

(** C4, refuted as stated: of two rows, the second has no position.  Its
    task raises [ValueError] at [int(...)], after which the dispatch
    raises too, in either completion order, although the task of the first
    row has returned a record. *)
Lemma skip_and_continue_refuted :
  process_row int_of_no_str (store_of [exon_T1 "+"]) (asdict row_X) = Ok [mapped_X]
  ∧ process_row int_of_no_str (store_of [exon_T1 "+"]) (asdict row_nopos) = Raise ValueError
  ∧ dispatch int_of_no_str (store_of [exon_T1 "+"]) (asdict <$> [row_X; row_nopos])
      [0; 1]%nat = Raise ValueError
  ∧ dispatch int_of_no_str (store_of [exon_T1 "+"]) (asdict <$> [row_X; row_nopos])
      [1; 0]%nat = Raise ValueError
  ∧ ¬ ∃ order, dispatch int_of_no_str (store_of [exon_T1 "+"])
                 (asdict <$> [row_X; row_nopos]) order = Ok [mapped_X]
               ∧ order ≡ₚ [0; 1]%nat.
Proof.
  split_and!; try reflexivity.
  intros (order & Hrun & Hperm). symmetry in Hperm.
  apply Permutation_length_2_inv in Hperm as [->| ->]; discriminate Hrun.
Defined.

Lemma dispatch_failure_propagates_witness :
  ∃ row' e', row' ∈ asdict <$> [row_X; row_nopos]
    ∧ process_row int_of_no_str (store_of [exon_T1 "+"]) row' = Raise e'
    ∧ dispatch int_of_no_str (store_of [exon_T1 "+"]) (asdict <$> [row_X; row_nopos])
        [1; 0]%nat = Raise e'.
Proof.
  apply (dispatch_failure_propagates int_of_no_str (store_of [exon_T1 "+"])
           (asdict <$> [row_X; row_nopos]) [1; 0]%nat 1%nat (asdict row_nopos) ValueError);
    [apply perm_swap | reflexivity | reflexivity].
Defined.

Lemma empty_records_raise_witness :
  map_genomic_to_transcript int_of_no_str world_bare [asdict row_X]
    ["genes.gtf"%string] ["out"%string] ["gtf.db"%string] empty_state
  = (Raise (KeyError "['transcript_id', 'genomic_position']"),
     (prepare ["genes.gtf"%string] ["out"%string] ["gtf.db"%string] empty_state).2)
  ∧ gppy_runs (prepare ["genes.gtf"%string] ["out"%string] ["gtf.db"%string] empty_state).2
    = [].
Proof.
  apply (empty_records_raise int_of_no_str world_bare [asdict row_X]
           ["genes.gtf"%string] ["out"%string] ["gtf.db"%string] empty_state).
  reflexivity.
Defined.

(** Two labels at one position: the pair (T1, 1000) is written twice. *)
Lemma gppy_input_one_line_per_record_witness :
  files (map_genomic_to_transcript int_of_no_str (world_exit 0)
           (asdict <$> [row_X; row_Y])
           ["genes.gtf"%string] ["out"%string] ["gtf.db"%string] empty_state).2
    !! ["out"; "gppy_input.tsv"]%string
  = Some (InputTsv None [(Some "T1"%string, 1000); (Some "T1"%string, 1000)])
  ∧ gppy_runs (map_genomic_to_transcript int_of_no_str (world_exit 0)
                 (asdict <$> [row_X; row_Y])
                 ["genes.gtf"%string] ["out"%string] ["gtf.db"%string] empty_state).2
    = [(["genes.gtf"%string], ["out"; "gppy_input.tsv"]%string)].
Proof.
  apply (gppy_input_one_line_per_record int_of_no_str (world_exit 0)
           (asdict <$> [row_X; row_Y])
           ["genes.gtf"%string] ["out"%string] ["gtf.db"%string] empty_state
           [mapped_X; mapped_Y]); [reflexivity | discriminate].
Defined.

(** C5, refuted as stated: the tool prints one row and exits with code 1;
    the run does not fail, it returns the two paths and has written the
    joined table. *)
Lemma nonzero_exit_not_fatal :
  gppy (world_exit 1) ["genes.gtf"%string]
    (Some (InputTsv None [(Some "T1"%string, 1000)]))
  = Ok (mkCompleted 1 (Table [transformed_T1]))
  ∧ (map_genomic_to_transcript int_of_no_str (world_exit 1) [asdict row_X]
       ["genes.gtf"%string] ["out"%string] ["gtf.db"%string] empty_state).1
    = Ok (["out"; "gppy_input.tsv"]%string, ["out"; "gppy_output_labeled.tsv"]%string)
  ∧ files (map_genomic_to_transcript int_of_no_str (world_exit 1) [asdict row_X]
             ["genes.gtf"%string] ["out"%string] ["gtf.db"%string] empty_state).2
      !! ["out"; "gppy_output_labeled.tsv"]%string
    = Some (MergedTsv (Some final_columns)
              [mkFinal "T1" 1000 50 "exon" (Some (PyStr "X"))]).
Proof. split_and!; vm_compute; reflexivity. Defined.

Lemma exit_code_not_inspected_witness :
  ∃ st',
    map_genomic_to_transcript int_of_no_str (world_exit 2) [asdict row_X]
      ["genes.gtf"%string] ["out"%string] ["gtf.db"%string] empty_state
    = (Ok (["out"; "gppy_input.tsv"]%string, ["out"; "gppy_output_labeled.tsv"]%string), st')
    ∧ files st' !! ["out"; "gppy_output_labeled.tsv"]%string
      = Some (MergedTsv (Some final_columns) (merge_left [transformed_T1] [mapped_X]))
    ∧ files st' !! ["out"; "gppy_output.tsv"]%string
      = Some (OutputTsv (Table [transformed_T1]))
    ∧ gppy_runs st' = [(["genes.gtf"%string], ["out"; "gppy_input.tsv"]%string)].
Proof.
  apply (exit_code_not_inspected int_of_no_str (world_exit 2) [asdict row_X]
           ["genes.gtf"%string] ["out"%string] ["gtf.db"%string] empty_state
           [mapped_X] 2 transformed_T1 []); [reflexivity | discriminate | reflexivity].
Defined.

Lemma partition_by_chromosome_witness :
  val_df [row_X; row_chr2; row_Y] ["1"%string] = [row_X; row_Y]
  ∧ train_df [row_X; row_chr2; row_Y] ["1"%string] = [row_chr2]
  ∧ [row_X; row_Y] ++ [row_chr2] ≡ₚ [row_X; row_chr2; row_Y].
Proof.
  split_and!; [reflexivity | reflexivity |].
  destruct (partition_by_chromosome int_of_no_str world_bare [row_X; row_chr2; row_Y]
              ["genes.gtf"%string] ["out"%string] ["gtf.db"%string] ["1"%string])
    as (_ & _ & _ & _ & Hperm); [discriminate | exact Hperm].
Defined.

Lemma process_row_records_witness :
  process_row int_of_no_str
    (store_of [exon_T1 "-"; exon_T1 "+"; exon_blank; exon_anonymous; exon_T1 "+"])
    (asdict row_X)
  = Ok [mapped_X; mapped_X].
Proof.
  destruct (process_row_records int_of_no_str
              (store_of [exon_T1 "-"; exon_T1 "+"; exon_blank; exon_anonymous; exon_T1 "+"])
              (asdict row_X) (PyStr "1") (PyInt 1000) 1000 (PyStr "+") (PyStr "X")
              [exon_T1 "-"; exon_T1 "+"; exon_blank; exon_anonymous; exon_T1 "+"])
    as [Hrun _]; [reflexivity .. | | exact Hrun].
  intros exon Hin _ Hattr.
  repeat (apply elem_of_cons in Hin as [->|Hin]; [discriminate Hattr |]).
  by apply elem_of_nil in Hin.
Defined.


Lemma process_row_bad_position_witness :
  process_row int_of_no_str store_broken (asdict row_nopos) = Raise ValueError.
Proof.
  apply (process_row_bad_position int_of_no_str store_broken (asdict row_nopos) PyNaN);
    [by eexists | reflexivity | discriminate].
Defined.

Lemma empty_attribute_list_raises_witness :
  process_row int_of_no_str (store_of [exon_T1 "+"; exon_unvalued]) (asdict row_X)
  = Raise IndexError.
Proof.
  apply (empty_attribute_list_raises int_of_no_str (store_of [exon_T1 "+"; exon_unvalued])
           (asdict row_X) (PyStr "1") (PyInt 1000) 1000 (PyStr "+") (PyStr "X")
           [exon_T1 "+"; exon_unvalued] None exon_unvalued);
    [reflexivity .. | by right; left | reflexivity | reflexivity].
Defined.

Lemma iteration_failure_propagates_witness :
  process_row int_of_no_str store_failing_late (asdict row_X)
  = Raise (OtherError "sqlite3.OperationalError").
Proof.
  apply (iteration_failure_propagates int_of_no_str store_failing_late (asdict row_X)
           (PyStr "1") (PyInt 1000) 1000 (PyStr "+") (PyStr "X")
           [exon_T1 "+"] (OtherError "sqlite3.OperationalError") [mapped_X]);
    reflexivity.
Defined.

Lemma dispatch_any_order_witness :
  ∃ recs, dispatch int_of_no_str (store_of [exon_T1 "+"]) (asdict <$> [row_X; row_Y])
            [1; 0]%nat = Ok recs
          ∧ recs ≡ₚ [mapped_X; mapped_Y].
Proof.
  apply (dispatch_any_order int_of_no_str (store_of [exon_T1 "+"])
           (asdict <$> [row_X; row_Y]) [1; 0]%nat [[mapped_X]; [mapped_Y]]);
    [reflexivity | apply perm_swap].
Defined.

Lemma dispatch_records_origin_witness :
  ∃ row rs, row ∈ asdict <$> [row_X; row_Y]
    ∧ process_row int_of_no_str (store_of [exon_T1 "+"]) row = Ok rs
    ∧ mapped_Y ∈ rs.
Proof.
  apply (dispatch_records_origin int_of_no_str (store_of [exon_T1 "+"])
           (asdict <$> [row_X; row_Y]) [1; 0]%nat [mapped_Y; mapped_X] mapped_Y);
    [reflexivity | by left].
Defined.


Lemma run_leaves_other_files_witness :
  files (map_genomic_to_transcript int_of_no_str (world_exit 0) [asdict row_X]
           ["genes.gtf"%string] ["out"%string] ["gtf.db"%string]
           (mkState {[ ["out"; "notes.txt"]%string := Directory ]} [])).2
    !! ["out"; "notes.txt"]%string
  = Some Directory.
Proof.
  rewrite (run_leaves_other_files int_of_no_str (world_exit 0) [asdict row_X]
             ["genes.gtf"%string] ["out"%string] ["gtf.db"%string]
             (mkState {[ ["out"; "notes.txt"]%string := Directory ]} [])
             ["out"; "notes.txt"]%string).
  - reflexivity.
  - unfold output_files. rewrite !not_elem_of_cons.
    split_and!; [discriminate .. | apply not_elem_of_nil].
  - left. by eexists.
Defined.

Lemma dispatch_failure_writes_nothing_witness :
  (map_genomic_to_transcript int_of_no_str (world_exit 0) (asdict <$> [row_X; row_nopos])
     ["genes.gtf"%string] ["out"%string] ["gtf.db"%string] empty_state).1
  = Raise ValueError
  ∧ files (map_genomic_to_transcript int_of_no_str (world_exit 0)
             (asdict <$> [row_X; row_nopos])
             ["genes.gtf"%string] ["out"%string] ["gtf.db"%string] empty_state).2
      !! ["out"; "gppy_input.tsv"]%string
    = None.
Proof.
  destruct (dispatch_failure_writes_nothing int_of_no_str (world_exit 0)
              (asdict <$> [row_X; row_nopos])
              ["genes.gtf"%string] ["out"%string] ["gtf.db"%string] empty_state ValueError)
    as (Hrun & _ & Hfiles); [reflexivity |].
  rewrite Hrun. split; [reflexivity |]. simpl.
  rewrite (Hfiles ["out"; "gppy_input.tsv"]%string); [reflexivity | by left | discriminate].
Defined.

Lemma tool_not_started_fatal_witness :
  ∃ st',
    map_genomic_to_transcript int_of_no_str world_no_tool [asdict row_X]
      ["genes.gtf"%string] ["out"%string] ["gtf.db"%string] empty_state
    = (Raise FileNotFoundError, st')
    ∧ files st' !! ["out"; "gppy_input.tsv"]%string
      = Some (InputTsv None [(Some "T1"%string, 1000)])
    ∧ files st' !! ["out"; "gppy_output.tsv"]%string = Some (OutputTsv (Table []))
    ∧ files st' !! ["out"; "gppy_output_labeled.tsv"]%string = None.
Proof.
  destruct (tool_not_started_fatal int_of_no_str world_no_tool [asdict row_X]
              ["genes.gtf"%string] ["out"%string] ["gtf.db"%string] empty_state
              [mapped_X] FileNotFoundError)
    as (st' & Hrun & Hin & Hout & Hmerged); [reflexivity | discriminate | reflexivity |].
  exists st'. split_and!; [exact Hrun | exact Hin | exact Hout |].
  etrans; [exact Hmerged | reflexivity].
Defined.

(** A tool that prints nothing and exits with code 0. *)
Lemma unusable_output_fatal_witness :
  ∃ st',
    map_genomic_to_transcript int_of_no_str (world_silent 0) [asdict row_X]
      ["genes.gtf"%string] ["out"%string] ["gtf.db"%string] empty_state
    = (Raise EmptyDataError, st')
    ∧ files st' !! ["out"; "gppy_output_labeled.tsv"]%string = None.
Proof.
  destruct (unusable_output_fatal int_of_no_str (world_silent 0) [asdict row_X]
              ["genes.gtf"%string] ["out"%string] ["gtf.db"%string] empty_state
              [mapped_X] (mkCompleted 0 (Table [])) EmptyDataError)
    as (_ & st' & Hrun & _ & Hmerged);
    [reflexivity | discriminate | reflexivity | reflexivity |].
  exists st'. split; [exact Hrun |]. etrans; [exact Hmerged | reflexivity].
Defined.

Lemma merge_left_permutation_witness :
  merge_left [transformed_T1] [mapped_X; mapped_Y]
  ≡ₚ merge_left [transformed_T1] [mapped_Y; mapped_X].
Proof.
  apply (merge_left_permutation [transformed_T1] [transformed_T1]
           [mapped_X; mapped_Y] [mapped_Y; mapped_X]); [reflexivity | apply perm_swap].
Defined.

(** The store has no exon: the training run collects nothing and raises,
    and the folder of the validation run is never created. *)
Lemma train_failure_skips_validation_witness :
  (main int_of_no_str world_bare [row_X; row_chr2]
     ["genes.gtf"%string] ["out"%string] ["gtf.db"%string] ["1"%string] empty_state).1
  = Raise (KeyError "['transcript_id', 'genomic_position']")
  ∧ files (main int_of_no_str world_bare [row_X; row_chr2]
             ["genes.gtf"%string] ["out"%string] ["gtf.db"%string] ["1"%string]
             empty_state).2 !! ["out"; "val"]%string
    = None.
Proof.
  rewrite (train_failure_skips_validation int_of_no_str world_bare [row_X; row_chr2]
             ["genes.gtf"%string] ["out"%string] ["gtf.db"%string] ["1"%string] empty_state
             (KeyError "['transcript_id', 'genomic_position']"));
    [split; reflexivity | discriminate | reflexivity].
Defined.

Lemma no_validation_rows_fatal_witness :
  (main int_of_no_str (world_exit 0) [row_chr2]
     ["genes.gtf"%string] ["out"%string] ["gtf.db"%string] ["1"%string] empty_state).1
  = Raise (KeyError "['transcript_id', 'genomic_position']").
Proof.
  rewrite (no_validation_rows_fatal int_of_no_str (world_exit 0) [row_chr2]
             ["genes.gtf"%string] ["out"%string] ["gtf.db"%string] ["1"%string] empty_state
             (["out"; "train"; "gppy_input.tsv"]%string,
              ["out"; "train"; "gppy_output_labeled.tsv"]%string));
    [reflexivity | discriminate | reflexivity | reflexivity].
Defined.

Lemma non_string_chromosomes_all_train_witness :
  val_df [row_numeric] ["1"%string] = [] ∧ train_df [row_numeric] ["1"%string] = [row_numeric].
Proof.
  apply (non_string_chromosomes_all_train [row_numeric] ["1"%string]).
  intros r Hin c. apply list_elem_of_singleton in Hin as ->. discriminate.
Defined.

Lemma validation_keeps_training_output_witness :
  ∃ rows,
    files (map_genomic_to_transcript int_of_no_str (world_exit 0)
             (asdict <$> train_df [row_chr2; row_X] ["1"%string])
             ["genes.gtf"%string] (["out"%string] ++ ["train"%string]) ["gtf.db"%string]
             empty_state).2
      !! (["out"%string] ++ ["train"; "gppy_output_labeled.tsv"]%string)
    = Some (MergedTsv (Some final_columns) rows)
    ∧ files (main int_of_no_str (world_exit 0) [row_chr2; row_X]
               ["genes.gtf"%string] ["out"%string] ["gtf.db"%string] ["1"%string]
               empty_state).2
        !! (["out"%string] ++ ["train"; "gppy_output_labeled.tsv"]%string)
      = Some (MergedTsv (Some final_columns) rows).
Proof.
  apply (validation_keeps_training_output int_of_no_str (world_exit 0) [row_chr2; row_X]
           ["genes.gtf"%string] ["out"%string] ["gtf.db"%string] ["1"%string] empty_state
           (["out"; "train"; "gppy_input.tsv"]%string,
            ["out"; "train"; "gppy_output_labeled.tsv"]%string));
    [discriminate | reflexivity].
Defined.

Lemma exit_code_irrelevant_witness :
  map_genomic_to_transcript int_of_no_str (world_exit 0) [asdict row_X]
    ["genes.gtf"%string] ["out"%string] ["gtf.db"%string] empty_state
  = map_genomic_to_transcript int_of_no_str (world_exit 3) [asdict row_X]
      ["genes.gtf"%string] ["out"%string] ["gtf.db"%string] empty_state.
Proof.
  apply (exit_code_irrelevant int_of_no_str (world_exit 0) (world_exit 3) [asdict row_X]
           ["genes.gtf"%string] ["out"%string] ["gtf.db"%string] empty_state);
    [reflexivity | reflexivity | intros g f; reflexivity].
Defined.
